(** * ITCortex: the Tamura dynamics profile and the IT neuron aggregator

    A shallow embedding of [Dynamics/tamura_dynamic_profile.py] and of
    [it_neuron_vrep.py].

    Conventions of the embedding.
    - Python and numpy floating point numbers are read as the real
      numbers they denote ([R]); infinities and NaN are outside the
      model.  Rounding is modelled where a float is turned into an
      integer: the quotient and the sums behind the history length of
      [__init__] and the quotient behind the delay of
      [_get_lagged_rates] are rounded to binary64 ([float64]), and the
      delay goes through the cast to a 64-bit integer ([astype_int]).
      Elsewhere the arithmetic on floats is exact.
    - Integers are unbounded ([Z]).  The index arithmetic of
      [_get_lagged_rates], which the source does on 64-bit integers, is
      also given with its wrap-around ([_get_lagged_rates_int64]) and
      shown to read the same samples ([lagged_rates_int64]).
    - The numpy arrays of the dynamics profile all have a leading axis of
      length one (one neuron per profile, [range(1)]); an array of shape
      [(1, n)] is a [list R] of length [n].
    - Python dictionaries are finite maps ([gmap string R]).
    - A raised exception is [None]; functions that write to [self] return
      the new object next to their result.
    - The sources are Python 2 (print statements, [reload]); the numpy of
      that time converts a float used as an array dimension to an integer
      by truncation, which is how [np.zeros((1, latency_steps))] is read. *)

From Stdlib Require Import Reals Lra Lia ZArith.
From stdpp Require Import gmap strings list option sorting.
#[local] Open Scope R_scope.

(** ** numpy primitives used by the sources *)
Module Numpy.

(** [floor] on the reals. *)
Definition floor (x : R) : Z := Int_part x.

(** [int(x)] and the conversion of a float array dimension: truncation
    towards zero. *)
Definition trunc (x : R) : Z :=
  if Rle_dec 0 x then floor x else (- floor (- x))%Z.

(** [math.ceil]. *)
Definition ceil (x : R) : Z := (- floor (- x))%Z.

(** [np.rint(x)]: round to the nearest integer, ties to the even one. *)
Definition rint (x : R) : Z :=
  let f := floor x in
  let d := x - IZR f in
  if Rlt_dec d (1 / 2) then f
  else if Rlt_dec (1 / 2) d then (f + 1)%Z
  else if Z.even f then f else (f + 1)%Z.

(** [a.astype('int')] on an integer-valued float: the value as a 64-bit
    integer (numpy's default integer on 64-bit Linux); a value outside
    the range of that type comes out as the smallest 64-bit integer
    (what the conversion yields on x86-64). *)
Definition astype_int (z : Z) : Z :=
  if bool_decide (- 2 ^ 63 <= z < 2 ^ 63)%Z then z else (- 2 ^ 63)%Z.

(** The result of an addition or subtraction of 64-bit integers: the
    exact one, wrapped around. *)
Definition wrap64 (z : Z) : Z := ((z + 2 ^ 63) mod 2 ^ 64 - 2 ^ 63)%Z.

(** The binary exponent of a non-zero number: the [e] with
    [2^e <= |x| < 2^(e+1)]. *)
Definition exponent (x : R) : Z := floor (ln (Rabs x) / ln 2).

(** The spacing of the binary64 numbers around [x] (53 significant
    bits). *)
Definition ulp (x : R) : R := powerRZ 2 (exponent x - 52).

(** Rounding to binary64: the nearest number with 53 significant bits,
    ties to the even significand.  The exponent is not bounded: overflow
    and gradual underflow are outside the model. *)
Definition float64 (x : R) : R :=
  if Req_dec_T x 0 then 0 else IZR (rint (x / ulp x)) * ulp x.

(** [x / y] and [x + y] on two floats. *)
Definition fdiv (x y : R) : R := float64 (x / y).
Definition fadd (x y : R) : R := float64 (x + y).

(** [np.zeros((1, n))] for a float [n]: the dimension is truncated; a
    negative dimension raises [ValueError], and so does one whose array
    of 8-byte floats would not fit the address space (the memory of the
    machine is outside the model). *)
Definition zeros (n : R) : option (list R) :=
  let k := trunc n in
  if (k <? 0)%Z || (2 ^ 60 <=? k)%Z then None
  else Some (replicate (Z.to_nat k) 0).

(** [a.shape[1]]. *)
Definition shape1 (a : list R) : Z := Z.of_nat (length a).

(** Resolution of an integer index against an axis of length [n]:
    negative indices count from the end, anything outside [-n, n)
    raises [IndexError]. *)
Definition resolve (n i : Z) : option nat :=
  if bool_decide (0 <= i < n)%Z then Some (Z.to_nat i)
  else if bool_decide (- n <= i < 0)%Z then Some (Z.to_nat (i + n))
  else None.

(** [a[:, i]] (read). *)
Definition get (a : list R) (i : Z) : option R :=
  j ← resolve (shape1 a) i; a !! j.

(** [a[:, i] = v] (write). *)
Definition set (a : list R) (i : Z) (v : R) : option (list R) :=
  j ← resolve (shape1 a) i; Some (<[j := v]> a).

(** Two-component vectors and 2x2 matrices (rows). *)
Definition vec2 : Type := R * R.
Definition mat2 : Type := vec2 * vec2.

(** What [np.dot], [+] and [*] do on the operands [integrate] receives:
    [M] is the type of the feedback matrix, [V] of state, input and
    output matrices. *)
Class Linear (M V : Type) := {
  dot_mv : M -> V -> V;      (* np.dot(a, x) *)
  dot_vs : V -> R -> V;      (* np.dot(b, u), dxdt*dt *)
  dot_vv : V -> V -> R;      (* np.dot(c, x) *)
  add : V -> V -> V;         (* + *)
}.

#[export] Instance linear_scalar : Linear R R := {|
  dot_mv a x := a * x;
  dot_vs b u := b * u;
  dot_vv c x := c * x;
  add x y := x + y;
|}.

#[export] Instance linear_2 : Linear mat2 vec2 := {|
  dot_mv a x := (a.1.1 * x.1 + a.1.2 * x.2, a.2.1 * x.1 + a.2.2 * x.2);
  dot_vs b u := (b.1 * u, b.2 * u);
  dot_vv c x := c.1 * x.1 + c.2 * x.2;
  add x y := (x.1 + y.1, x.2 + y.2);
|}.

(** scalar * array *)
Definition scale_v (s : R) (v : vec2) : vec2 := (s * v.1, s * v.2).
Definition scale_m (s : R) (m : mat2) : mat2 := (scale_v s m.1, scale_v s m.2).

(** Comparison of two floats, as a decision. *)
#[export] Instance Rle_decision : RelDecision Rle := Rle_dec.
#[export] Instance Rlt_decision : RelDecision Rlt := Rlt_dec.

End Numpy.

(** ** Dynamics/tamura_dynamic_profile.py *)
Module Tamura.
Import Numpy.

(** Euler integration of state-space equations. *)
Definition integrate {M V} `{Linear M V} (dt : R) (a : M) (b c x : V) (u : R)
  : V * R :=
  let dxdt := add (dot_mv a x) (dot_vs b u) in
  let x := add x (dot_vs dxdt dt) in
  let y := dot_vv c x in
  (x, y).

(** The attributes of a [TamuraDynamics] object. *)
Record TamuraDynamics := {
  dt : R;
  type : string;
  early_obj_pref : gmap string R;
  min_latencies : R;
  max_latencies : R;
  tau_latencies : R;
  late_additional_latency : Z;
  early_memory : list R;
  late_memory : list R;
  memory_index : Z;
  early_tau : R;
  late_tau : R;
  early_A : mat2;
  early_B : vec2;
  late_A : R;
  late_B : R;
  early_C : vec2;
  late_C : R;
  early_x : vec2;
  late_x : R;
}.

(** Attribute assignments made by the methods. *)
Definition with_memory (self : TamuraDynamics) (em lm : list R) :=
  {| dt := dt self; type := type self; early_obj_pref := early_obj_pref self;
     min_latencies := min_latencies self; max_latencies := max_latencies self;
     tau_latencies := tau_latencies self;
     late_additional_latency := late_additional_latency self;
     early_memory := em; late_memory := lm;
     memory_index := memory_index self;
     early_tau := early_tau self; late_tau := late_tau self;
     early_A := early_A self; early_B := early_B self;
     late_A := late_A self; late_B := late_B self;
     early_C := early_C self; late_C := late_C self;
     early_x := early_x self; late_x := late_x self |}.

Definition with_memory_index (self : TamuraDynamics) (i : Z) :=
  {| dt := dt self; type := type self; early_obj_pref := early_obj_pref self;
     min_latencies := min_latencies self; max_latencies := max_latencies self;
     tau_latencies := tau_latencies self;
     late_additional_latency := late_additional_latency self;
     early_memory := early_memory self; late_memory := late_memory self;
     memory_index := i;
     early_tau := early_tau self; late_tau := late_tau self;
     early_A := early_A self; early_B := early_B self;
     late_A := late_A self; late_B := late_B self;
     early_C := early_C self; late_C := late_C self;
     early_x := early_x self; late_x := late_x self |}.

Definition with_state (self : TamuraDynamics) (ex : vec2) (lx : R) :=
  {| dt := dt self; type := type self; early_obj_pref := early_obj_pref self;
     min_latencies := min_latencies self; max_latencies := max_latencies self;
     tau_latencies := tau_latencies self;
     late_additional_latency := late_additional_latency self;
     early_memory := early_memory self; late_memory := late_memory self;
     memory_index := memory_index self;
     early_tau := early_tau self; late_tau := late_tau self;
     early_A := early_A self; early_B := early_B self;
     late_A := late_A self; late_B := late_B self;
     early_C := early_C self; late_C := late_C self;
     early_x := ex; late_x := lx |}.

(** The selectivity for each object is doubled and constrained to at
    most 1. *)
Definition get_early_object_selectivities (late_obj_dict : gmap string R)
  : gmap string R :=
  (fun value => Rmin (value * 2) 1) <$> late_obj_dict.

(** The outcomes of the random draws of [__init__], in source order. *)
Record Draws := {
  rand_min : R;      (* np.random.rand(1), in [0, 1) *)
  gamma_max : R;     (* np.random.gamma(5, .02, 1), positive *)
  gamma_tau : R;     (* np.random.gamma(2, 20, 1), positive *)
  randn_early : R;   (* np.random.randn(1) *)
  randn_late : R;    (* np.random.randn(1) *)
}.

(** The support of the distributions drawn from. *)
Definition draws_ok (w : Draws) : Prop :=
  0 <= rand_min w < 1 /\ 0 < gamma_max w /\ 0 < gamma_tau w.

(** [TamuraDynamics.__init__(dt, obj_dict, max_latency)].  A zero [dt]
    raises [ZeroDivisionError], a negative or oversized buffer length
    [ValueError].  The buffer length is computed in floating point: one
    division and two additions, each rounded. *)
Definition init (dt : R) (obj_dict : gmap string R) (max_latency : R)
    (w : Draws) : option TamuraDynamics :=
  let min_latencies := 9 / 100 + 1 / 100 * rand_min w in
  let max_latencies := Rmin max_latency (min_latencies + gamma_max w) in
  let tau_latencies := gamma_tau w in
  let late_additional_latency := 10%Z in
  if Req_dec_T dt 0 then None else
  let latency_steps :=
    fadd (fadd (fdiv max_latency dt) 1) (IZR late_additional_latency) in
  early_memory ← zeros latency_steps;
  late_memory ← zeros latency_steps;
  let early_gain := (15 / 10) / (39 / 100) in
  let late_gain := 1 in
  Some {|
    dt := dt;
    type := "Tamura_dynamic_profile";
    early_obj_pref := get_early_object_selectivities obj_dict;
    min_latencies := min_latencies;
    max_latencies := max_latencies;
    tau_latencies := tau_latencies;
    late_additional_latency := late_additional_latency;
    early_memory := early_memory;
    late_memory := late_memory;
    memory_index := 0;
    early_tau := Rmax (5 / 1000) (17 / 1000 + 5 / 1000 * randn_early w);
    late_tau := 5 / 100 + 1 / 100 * randn_late w;
    early_A := ((-1, 0), (1, -1));
    early_B := (1, 0);
    late_A := -1;
    late_B := 1;
    early_C := (early_gain, - early_gain);
    late_C := late_gain;
    early_x := (0, 0);
    late_x := 0;
  |}.

(** The float that [__init__] passes to [np.zeros] as the length of the
    history (its local [latency_steps]). *)
Definition allocated_steps (dt max_latency : R) : R :=
  fadd (fadd (fdiv max_latency dt) 1) 10.

(** Latency varies with response strength. *)
Definition _get_latencies (self : TamuraDynamics) (static_rates : R) : R :=
  min_latencies self +
  (max_latencies self - min_latencies self)
  * exp (- static_rates / tau_latencies self).

(** The index of the slot [latency_steps] steps behind the cursor.  The
    source computes on 64-bit integers where this is on [Z];
    [_get_lagged_rates_int64] below has the wrap-around written out. *)
Definition _get_index (self : TamuraDynamics) (latency_steps : Z) : Z :=
  let index :=
    (memory_index self
     - Z.min latency_steps (shape1 (early_memory self)))%Z in
  if (index <? 0)%Z then (index + shape1 (early_memory self))%Z else index.

(** Appropriately lagged rates for input to the LTI dynamics. *)
Definition _get_lagged_rates (self : TamuraDynamics) (latencies : R)
  : option (R * R) :=
  let latency_steps := astype_int (rint (fdiv latencies (dt self))) in
  let early_indices := _get_index self latency_steps in
  let late_indices :=
    _get_index self (latency_steps + late_additional_latency self)%Z in
  early_u ← get (early_memory self) early_indices;
  late_u ← get (late_memory self) late_indices;
  Some (early_u, late_u).

(** [_get_index] and [_get_lagged_rates] with the integer arithmetic of
    the source written out: the delay is an array of 64-bit integers,
    and the sum with [late_additional_latency], the subtraction from the
    cursor and the correction of a negative index wrap around. *)
Definition _get_index_int64 (self : TamuraDynamics) (latency_steps : Z) : Z :=
  let index :=
    wrap64 (memory_index self
            - Z.min latency_steps (shape1 (early_memory self))) in
  if (index <? 0)%Z then wrap64 (index + shape1 (early_memory self))
  else index.

Definition _get_lagged_rates_int64 (self : TamuraDynamics) (latencies : R)
  : option (R * R) :=
  let latency_steps := astype_int (rint (fdiv latencies (dt self))) in
  let early_indices := _get_index_int64 self latency_steps in
  let late_indices :=
    _get_index_int64 self
      (wrap64 (latency_steps + late_additional_latency self)) in
  early_u ← get (early_memory self) early_indices;
  late_u ← get (late_memory self) late_indices;
  Some (early_u, late_u).

(** A single step of the LTI dynamics. *)
Definition _step_dynamics (self : TamuraDynamics) (early_u late_u : R)
  : R * TamuraDynamics :=
  let early_a := scale_m (1 / early_tau self) (early_A self) in
  let early_b := scale_v (1 / early_tau self) (early_B self) in
  let '(early_x', early_y) :=
    integrate (dt self) early_a early_b (early_C self) (early_x self) early_u in
  let late_a := 1 / late_tau self * late_A self in
  let late_b := 1 / late_tau self * late_B self in
  let '(late_x', late_y) :=
    integrate (dt self) late_a late_b (late_C self) (late_x self) late_u in
  let y := Rmax 0 early_y + late_y in
  (y, with_state self early_x' late_x').

Definition get_dynamic_rates (self : TamuraDynamics) (early_rates late_rates : R)
  : option (R * TamuraDynamics) :=
  em ← set (early_memory self) (memory_index self) early_rates;
  lm ← set (late_memory self) (memory_index self) late_rates;
  let self := with_memory self em lm in
  let latencies := _get_latencies self early_rates in
  '(early_u, late_u) ← _get_lagged_rates self latencies;
  let self := with_memory_index self (memory_index self + 1) in
  let self :=
    if bool_decide (memory_index self = shape1 (early_memory self))
    then with_memory_index self 0 else self in
  Some (_step_dynamics self early_u late_u).

(** One call of [get_dynamic_rates] per time step, as in the driver loop
    of the module ([for i in range(steps)]): the rates returned, in call
    order, and the object afterwards. *)
Fixpoint run (self : TamuraDynamics) (inputs : list (R * R))
  : option (list R * TamuraDynamics) :=
  match inputs with
  | [] => Some ([], self)
  | (early_rates, late_rates) :: inputs =>
    '(y, self) ← get_dynamic_rates self early_rates late_rates;
    '(ys, self) ← run self inputs;
    Some (y :: ys, self)
  end.

(** The shape of the history buffer that [__init__] sets up and every
    step keeps: two sequences of one length and a cursor inside them. *)
Definition buffer_ok (self : TamuraDynamics) : Prop :=
  (shape1 (late_memory self) = shape1 (early_memory self) /\
   0 <= memory_index self < shape1 (early_memory self))%Z.

(** The latency, in steps, that a call with the given early rate asks
    for (the [latency_steps] of [_get_lagged_rates]). *)
Definition latency_steps (self : TamuraDynamics) (early_rates : R) : Z :=
  astype_int (rint (fdiv (_get_latencies self early_rates) (dt self))).

(** The object between the write to the history and the read from it. *)
Definition written (self : TamuraDynamics) (early_rates late_rates : R)
  : option TamuraDynamics :=
  em ← set (early_memory self) (memory_index self) early_rates;
  lm ← set (late_memory self) (memory_index self) late_rates;
  Some (with_memory self em lm).

(** An object at rest: a well-shaped history of zeros and both LTI
    states at zero, as [__init__] leaves it. *)
Definition at_rest (self : TamuraDynamics) : Prop :=
  buffer_ok self /\
  Forall (fun v => v = 0) (early_memory self) /\
  Forall (fun v => v = 0) (late_memory self) /\
  early_x self = (0, 0) /\ late_x self = 0.

(** The cursor after a step, for a buffer of length [n]. *)
Definition advance (n c : Z) : Z :=
  if bool_decide (c + 1 = n)%Z then 0%Z else (c + 1)%Z.

(** Poisson approximation via Bernoulli process.  [rand i] is entry [i]
    of the outcome of [np.random.rand(len(rates))], a number in
    [[0, 1)]; the result has a spike wherever the draw is below
    [dt * rate]. *)
Definition get_poisson_spikes (dt : R) (rates : list R) (rand : nat -> R)
  : list bool :=
  imap (fun i rate => bool_decide (rand i < dt * rate)) rates.

(** The order of [sorted(..., key=lambda item: item[1], reverse=True)]:
    an item comes before every item of a smaller or equal value. *)
Definition by_value_descending (a b : string * R) : Prop := b.2 <= a.2.

#[export] Instance by_value_descending_dec : RelDecision by_value_descending :=
  fun a b => Rle_dec b.2 a.2.

(** The neuron's rank list of objects and rate modification factors:
    the items of [early_obj_pref] sorted by value, largest first.  The
    order in which a dictionary yields its items, and with it the order
    among equal values, is not fixed by the source. *)
Definition get_ranked_object_list (self : TamuraDynamics)
  : list (string * R) :=
  merge_sort by_value_descending (map_to_list (early_obj_pref self)).

(** The templates and output matrices that [__init__] assigns (for some
    early gain), which no method changes. *)
Definition structural (self : TamuraDynamics) : Prop :=
  early_A self = ((-1, 0), (1, -1)) /\
  early_B self = (1, 0) /\
  late_A self = -1 /\
  late_B self = 1 /\
  (early_C self).2 = - (early_C self).1 /\
  late_C self = 1.

(** An object settled on the constant drive [(e, l)]: the two history
    sequences hold nothing but [e] and [l], both early states are [e]
    and the late state is [l]. *)
Definition settled (self : TamuraDynamics) (e l : R) : Prop :=
  buffer_ok self /\ structural self /\
  Forall (fun v => v = e) (early_memory self) /\
  Forall (fun v => v = l) (late_memory self) /\
  early_x self = (e, e) /\ late_x self = l.

End Tamura.

(** ** Concrete objects used to exercise the statements below *)
Module Examples.
Import Numpy Tamura.

(** A profile with the structural matrices of [__init__], the given
    latency parameters and history, and both time constants at the
    centre of their distributions. *)
Definition engine (dt min_latency max_latency tau : R)
    (em lm : list R) (cursor : Z) (ex : vec2) (lx : R) : TamuraDynamics :=
  {| dt := dt;
     type := "Tamura_dynamic_profile";
     early_obj_pref := ∅;
     min_latencies := min_latency;
     max_latencies := max_latency;
     tau_latencies := tau;
     late_additional_latency := 10;
     early_memory := em;
     late_memory := lm;
     memory_index := cursor;
     early_tau := 17 / 1000;
     late_tau := 5 / 100;
     early_A := ((-1, 0), (1, -1));
     early_B := (1, 0);
     late_A := -1;
     late_B := 1;
     early_C := ((15 / 10) / (39 / 100), - ((15 / 10) / (39 / 100)));
     late_C := 1;
     early_x := ex;
     late_x := lx |}.

(** A profile as constructed with [dt = 0.005] and a ceiling of 0.095,
    where the draw of the minimal latency came out at the ceiling: 30
    history slots, every latency 19 steps. *)
Definition engine30 : TamuraDynamics :=
  engine (5 / 1000) (95 / 1000) (95 / 1000) 40
    (replicate 30 0) (replicate 30 0) 0 (0, 0) 0.

(** A profile in mid-run: 30 history slots, every latency 19 steps, the
    cursor at slot 7 and the given LTI states.  The early history holds
    50 in slot 18, which is 19 steps behind the cursor, and 1 elsewhere;
    the late history holds [l] in slot 8, which is 29 steps behind the
    cursor, and 2 elsewhere. *)
Definition driven (ex : vec2) (lx l : R) : TamuraDynamics :=
  engine (5 / 1000) (95 / 1000) (95 / 1000) 40
    (<[18%nat := 50]> (replicate 30 1)) (<[8%nat := l]> (replicate 30 2))
    7 ex lx.

(** The binary64 numbers that the literals [0.005], [0.003] and [0.235]
    denote. *)
Definition dt_005 : R := 5764607523034235 / 1152921504606846976.
Definition dt_003 : R := 3458764513820541 / 1152921504606846976.
Definition ceiling_235 : R := 2116691824864133 / 9007199254740992.

(** Draws at the low end of the latency ranges, both normal draws at
    their mean. *)
Definition draws0 : Draws :=
  {| rand_min := 0; gamma_max := 1 / 10; gamma_tau := 40;
     randn_early := 0; randn_late := 0 |}.


(** A profile whose early preference table comes from the late table
    [{car: 0.4, bus: 0.6}]. *)
Definition engine_car_bus : TamuraDynamics :=
  {| dt := 5 / 1000;
     type := "Tamura_dynamic_profile";
     early_obj_pref :=
       get_early_object_selectivities {[ "car" := 2 / 5; "bus" := 3 / 5 ]};
     min_latencies := 9 / 100;
     max_latencies := 1 / 4;
     tau_latencies := 40;
     late_additional_latency := 10;
     early_memory := replicate 61 0;
     late_memory := replicate 61 0;
     memory_index := 0;
     early_tau := 17 / 1000;
     late_tau := 5 / 100;
     early_A := ((-1, 0), (1, -1));
     early_B := (1, 0);
     late_A := -1;
     late_B := 1;
     early_C := ((15 / 10) / (39 / 100), - ((15 / 10) / (39 / 100)));
     late_C := 1;
     early_x := (0, 0);
     late_x := 0 |}.

End Examples.

(** ** it_neuron_vrep.py *)
Module ITNeuron.
Import Numpy.

(** What the tuning profiles exchange: a Python number or a
    one-dimensional numpy array. *)
Inductive ndarray :=
| Scalar (r : R)
| Array (l : list R).

Fixpoint zip_mul (l1 l2 : list R) : list R :=
  match l1, l2 with
  | a :: l1, b :: l2 => a * b :: zip_mul l1 l2
  | _, _ => []
  end.

(** [*] with broadcasting; incompatible shapes raise [ValueError]. *)
Definition mul (a b : ndarray) : option ndarray :=
  match a, b with
  | Scalar r, Scalar s => Some (Scalar (r * s))
  | Scalar r, Array l => Some (Array (map (fun v => r * v) l))
  | Array l, Scalar s => Some (Array (map (fun v => v * s) l))
  | Array l1, Array l2 =>
      if bool_decide (length l1 = length l2) then Some (Array (zip_mul l1 l2))
      else match l1, l2 with
           | [r], _ => Some (Array (map (fun v => r * v) l2))
           | _, [s] => Some (Array (map (fun v => v * s) l1))
           | _, _ => None
           end
  end.

(** [np.float(rate)]: a number, or an array with exactly one element. *)
Definition np_float (a : ndarray) : option R :=
  match a with
  | Scalar r => Some r
  | Array [r] => Some r
  | Array _ => None
  end.

(** One entry of the ground truth list:
    [(object_name, x, y, size, rot_x, rot_y, rot_z, vis_nondiag, vis_diag)]. *)
Definition ground_truth : Type := string * R * R * R * R * R * R * R * R.

(** A tuning profile taking arguments of type [A]: either the default
    [CompleteTolerance], or a profile defined outside these sources. *)
Inductive profile (A : Type) :=
| CompleteTolerance
| Tuned (modifier : A -> ndarray).
Arguments CompleteTolerance {A}.
Arguments Tuned {A} modifier.

(** [CompleteTolerance.firing_rate_modifier] returns 1 no matter what
    inputs are provided. *)
Definition firing_rate_modifier {A} (p : profile A) (args : A) : ndarray :=
  match p with
  | CompleteTolerance => Scalar 1
  | Tuned modifier => modifier args
  end.

(** The attributes of a [Neuron] that [firing_rate] reads.  [objects]
    is [self.selectivity.objects]; [clutter] is
    [self.clutter.firing_rate_modifier], defined outside these sources. *)
Record Neuron := {
  objects : gmap string R;
  max_fire_rate : R;
  dynamics : option Tamura.TamuraDynamics;
  position : profile (list R * list R);
  size : profile (list R);
  occlusion : profile (list R * list R);
  clutter : ndarray -> ndarray -> option ndarray;
}.

Definition with_dynamics (self : Neuron) (d : Tamura.TamuraDynamics) :=
  {| objects := objects self; max_fire_rate := max_fire_rate self;
     dynamics := Some d; position := position self; size := size self;
     occlusion := occlusion self; clutter := clutter self |}.

(** The neuron's static overall firing rate to the specified input.
    [zip] of an empty list cannot be unpacked into nine names. *)
Definition _get_static_firing_rate (self : Neuron)
    (object_dict : gmap string R) (ground_truth_list : list ground_truth)
  : option ndarray :=
  match ground_truth_list with
  | [] => None
  | _ =>
    let objects := map (fun '(o, _, _, _, _, _, _, _, _) => o) ground_truth_list in
    let x_arr := map (fun '(_, x, _, _, _, _, _, _, _) => x) ground_truth_list in
    let y_arr := map (fun '(_, _, y, _, _, _, _, _, _) => y) ground_truth_list in
    let size_arr := map (fun '(_, _, _, s, _, _, _, _, _) => s) ground_truth_list in
    let vis_nd := map (fun '(_, _, _, _, _, _, _, v, _) => v) ground_truth_list in
    let vis_d := map (fun '(_, _, _, _, _, _, _, _, v) => v) ground_truth_list in
    let obj_pref_list :=
      Array (map (fun obj => default 0 (object_dict !! obj)) objects) in
    let position_weights := firing_rate_modifier (position self) (x_arr, y_arr) in
    r ← mul (Scalar (max_fire_rate self)) obj_pref_list;
    r ← mul r position_weights;
    r ← mul r (firing_rate_modifier (size self) size_arr);
    isolated_rates ← mul r (firing_rate_modifier (occlusion self) (vis_nd, vis_d));
    clutter self isolated_rates position_weights
  end.

(** [self.dynamics is not None and self.dynamics.type == 'tamura'] *)
Definition tamura_dynamics (self : Neuron) : option Tamura.TamuraDynamics :=
  d ← dynamics self;
  if bool_decide (Tamura.type d = "tamura") then Some d else None.

Definition firing_rate (self : Neuron) (ground_truth_list : list ground_truth)
  : option (R * Neuron) :=
  let rate := Scalar 0 in
  let default_rate := Scalar 0 in
  let early_rate := Scalar 0 in
  match tamura_dynamics self with
  | Some d =>
    '(default_rate, early_rate) ←
      match ground_truth_list with
      | [] => Some (default_rate, early_rate)
      | _ =>
        default_rate ← _get_static_firing_rate self (objects self) ground_truth_list;
        early_rate ←
          _get_static_firing_rate self (Tamura.early_obj_pref d) ground_truth_list;
        Some (default_rate, early_rate)
      end;
    early_rate ← np_float early_rate;
    default_rate ← np_float default_rate;
    '(rate, d) ← Tamura.get_dynamic_rates d early_rate default_rate;
    Some (rate, with_dynamics self d)
  | None =>
    rate ←
      match ground_truth_list with
      | [] => Some rate
      | _ => _get_static_firing_rate self (objects self) ground_truth_list
      end;
    rate ← np_float rate;
    Some (rate, self)
  end.

(** Successive calls of [firing_rate] on one neuron; the rates returned,
    in call order, and the neuron afterwards. *)
Fixpoint firing_rates (self : Neuron) (scenes : list (list ground_truth))
  : option (list R * Neuron) :=
  match scenes with
  | [] => Some ([], self)
  | scene :: scenes =>
    '(rate, self) ← firing_rate self scene;
    '(rates, self) ← firing_rates self scenes;
    Some (rate :: rates, self)
  end.

Definition sum (a : ndarray) : R :=
  match a with
  | Scalar r => r
  | Array l => foldr Rplus 0 l
  end.

(** Modelled from the spec: the clutter profile's [firing_rate_modifier]
    ([ClutterTolerance/averaging_clutter_profile.py] is not among the
    sources).  The spec gives its interface, isolated rates and position
    weights to one joint rate; the averaging policy selected by
    [clutter_profile='average'] is taken as the weighted mean. *)
Definition averaging_clutter (isolated_rates weights : ndarray)
  : option ndarray :=
  weighted ← mul isolated_rates weights;
  Some (Scalar (sum weighted / sum weights)).

(** [str.lower()] on ASCII text. *)
Definition lower_ascii (c : Ascii.ascii) : Ascii.ascii :=
  let n := Ascii.N_of_ascii c in
  if ((65 <=? n) && (n <=? 90))%N then Ascii.ascii_of_N (n + 32) else c.

Fixpoint lower (s : string) : string :=
  match s with
  | EmptyString => EmptyString
  | String c s => String (lower_ascii c) (lower s)
  end.

(** The attributes [__init__] reads from a selectivity profile
    ([ObjectSelectivity], defined outside these sources).
    [get_max_firing_rate] is only called on a profile whose type is
    ['kurtosis']. *)
Module Selectivity.
Record t := {
  type : string;
  objects : gmap string R;
  activity_fraction_absolute : R;
  get_max_firing_rate : R;
}.
End Selectivity.

(** A Gaussian position profile ([PositionTolerance], defined outside
    these sources): the position tolerance that the size profile asks
    for, and the rate modifier. *)
Module GaussianPosition.
Record t := {
  position_tolerance : R;
  firing_rate_modifier : list R * list R -> ndarray;
}.
End GaussianPosition.

(** The outcome of each constructor that [__init__] may call on the
    classes defined outside these sources, random draws included. *)
Record Collaborators := {
  PowerLawSparseness : list string -> Selectivity.t;
  KurtosisSparseness : list string -> Selectivity.t;
  GaussianPositionProfile : R -> GaussianPosition.t;
  LogNormalSizeProfile : R -> list R -> ndarray;
  TwoInputSigmoidOcclusionProfile : list R * list R -> ndarray;
  AveragingClutterProfile : ndarray -> ndarray -> option ndarray;
}.

(** [Neuron.__init__].  An invalid profile name raises [Exception], and
    so does a log-normal size profile on a position profile without
    [position_tolerance], which [CompleteTolerance] does not have.  The
    dynamics profile is constructed with its default ceiling of 0.25;
    [draws] are the outcomes of its random draws. *)
Definition init (ext : Collaborators) (draws : Tamura.Draws)
    (object_list : list string) (sim_time_step_s : R)
    (selectivity_profile : string) (max_fire_rate : R)
    (position_profile dynamic_profile size_profile occlusion_profile
       : option string)
    (clutter_profile : string) : option Neuron :=
  selectivity ←
    (if bool_decide (lower selectivity_profile = "power_law")
     then Some (PowerLawSparseness ext object_list)
     else if bool_decide (lower selectivity_profile = "kurtosis")
     then Some (KurtosisSparseness ext object_list)
     else None);
  let max_fire_rate :=
    if bool_decide (Selectivity.type selectivity = "kurtosis")
    then Selectivity.get_max_firing_rate selectivity
    else max_fire_rate in
  dynamics ←
    match dynamic_profile with
    | None => Some None
    | Some name =>
      if bool_decide (lower name = "tamura")
      then d ← Tamura.init sim_time_step_s (Selectivity.objects selectivity)
                 (1 / 4) draws;
           Some (Some d)
      else None
    end;
  position ←
    match position_profile with
    | None => Some None
    | Some name =>
      if bool_decide (lower name = "gaussian")
      then Some (Some (GaussianPositionProfile ext
                         (Selectivity.activity_fraction_absolute selectivity)))
      else None
    end;
  size ←
    match size_profile with
    | None => Some CompleteTolerance
    | Some name =>
      if bool_decide (lower name = "lognormal")
      then match position with
           | Some gaussian =>
             Some (Tuned (LogNormalSizeProfile ext
                            (GaussianPosition.position_tolerance gaussian)))
           | None => None
           end
      else None
    end;
  occlusion ←
    match occlusion_profile with
    | None => Some CompleteTolerance
    | Some name =>
      if bool_decide (lower name = "twoinputsigmoid")
      then Some (Tuned (TwoInputSigmoidOcclusionProfile ext))
      else None
    end;
  clutter ←
    (if bool_decide (lower clutter_profile = "average")
     then Some (AveragingClutterProfile ext)
     else None);
  Some {|
    objects := Selectivity.objects selectivity;
    max_fire_rate := max_fire_rate;
    dynamics := dynamics;
    position :=
      match position with
      | None => CompleteTolerance
      | Some gaussian => Tuned (GaussianPosition.firing_rate_modifier gaussian)
      end;
    size := size;
    occlusion := occlusion;
    clutter := clutter;
  |}.

End ITNeuron.

Module NeuronExamples.
Import ITNeuron.

(** The neuron of the end-to-end scenario: no dynamics, preference
    table [{A: 0.5}], [max_fire_rate = 100], every tolerance complete,
    averaging clutter. *)
Definition neuron_A : Neuron :=
  {| objects := {[ "A" := 1 / 2 ]};
     max_fire_rate := 100;
     dynamics := None;
     position := CompleteTolerance;
     size := CompleteTolerance;
     occlusion := CompleteTolerance;
     clutter := averaging_clutter |}.

(** Collaborators whose profiles all return 1, with the preference
    table [{A: 0.5}] from either selectivity constructor and the
    averaging clutter. *)
Definition plain_collaborators : Collaborators :=
  {| PowerLawSparseness _ :=
       {| Selectivity.type := "power_law";
          Selectivity.objects := {[ "A" := 1 / 2 ]};
          Selectivity.activity_fraction_absolute := 1 / 2;
          Selectivity.get_max_firing_rate := 100 |};
     KurtosisSparseness _ :=
       {| Selectivity.type := "kurtosis";
          Selectivity.objects := {[ "A" := 1 / 2 ]};
          Selectivity.activity_fraction_absolute := 1 / 2;
          Selectivity.get_max_firing_rate := 80 |};
     GaussianPositionProfile _ :=
       {| GaussianPosition.position_tolerance := 1;
          GaussianPosition.firing_rate_modifier _ := Scalar 1 |};
     LogNormalSizeProfile _ _ := Scalar 1;
     TwoInputSigmoidOcclusionProfile _ := Scalar 1;
     AveragingClutterProfile := averaging_clutter |}.

End NeuronExamples.

(** ** OcclusionTolerence/occlusion_fit.py *)
Module OcclusionFit.

Definition exponential (x a : R) : R := a * exp (- a * x).

Definition sigmoid (x a b : R) : R := 1 / (1 + exp (a * (x - b))).

(** One generated diagnostic variance, [-np.log(y) / a] for a uniform
    draw [y] and the fitted parameter [a] (inverse of the CDF
    [1 - exp(-a*x)]). *)
Definition genDiagVar (y a : R) : R := - ln y / a.

(** One entry [Z[ii][jj]] of the weighted average tuning surface. *)
Definition Z (diagVar : R) (diagParams nonDiagAvgParams : R * R)
    (ii jj : R) : R :=
  diagVar * sigmoid ii diagParams.1 diagParams.2 +
  (1 - diagVar) * sigmoid jj nonDiagAvgParams.1 nonDiagAvgParams.2.

End OcclusionFit.

(** ** Facts about the numpy primitives *)
Module NumpyFacts.
Import Numpy.

Lemma floor_bounds (x : R) : IZR (floor x) <= x < IZR (floor x) + 1.
Proof.
  unfold floor. destruct (base_Int_part x) as [H1 H2]. lra.
Qed.

Lemma floor_unique (x : R) (z : Z) : IZR z <= x < IZR z + 1 -> floor x = z.
Proof.
  intros [H1 H2]. unfold floor. symmetry. apply Int_part_spec. lra.
Qed.

Lemma floor_IZR (z : Z) : floor (IZR z) = z.
Proof. apply floor_unique. lra. Qed.

Lemma floor_le (x : R) (z : Z) : IZR z <= x -> (z <= floor x)%Z.
Proof.
  intros H. destruct (floor_bounds x) as [_ H2].
  assert (IZR z < IZR (floor x + 1)) as H3 by (rewrite plus_IZR; lra).
  apply lt_IZR in H3. lia.
Qed.

Lemma rint_cases (x : R) : rint x = floor x \/ rint x = (floor x + 1)%Z.
Proof.
  unfold rint.
  destruct (Rlt_dec _ _); [by left|].
  destruct (Rlt_dec _ _); [by right|].
  destruct (Z.even _); [by left | by right].
Qed.

Lemma rint_ge (x : R) (z : Z) : IZR z <= x -> (z <= rint x)%Z.
Proof.
  intros H%floor_le. destruct (rint_cases x) as [-> | ->]; lia.
Qed.

Lemma rint_IZR (z : Z) : rint (IZR z) = z.
Proof.
  unfold rint. rewrite floor_IZR.
  destruct (Rlt_dec _ _) as [|n]; [done|]. exfalso. apply n. lra.
Qed.

Lemma trunc_nonneg (x : R) : 0 <= x -> trunc x = floor x.
Proof. intros H. unfold trunc. destruct (Rle_dec 0 x); [done | lra]. Qed.

Lemma resolve_in_range (n i : Z) :
  (0 <= i < n)%Z -> resolve n i = Some (Z.to_nat i).
Proof. intros H. unfold resolve. by rewrite bool_decide_eq_true_2. Qed.

Lemma resolve_Some (n i : Z) (j : nat) :
  resolve n i = Some j -> (j < Z.to_nat n)%nat.
Proof.
  unfold resolve. repeat case_bool_decide; intros; simplify_eq; lia.
Qed.

Lemma get_in_range (a : list R) (i : Z) :
  (0 <= i < shape1 a)%Z -> get a i = a !! Z.to_nat i.
Proof. intros H. unfold get. by rewrite resolve_in_range. Qed.

Lemma set_in_range (a : list R) (i : Z) (v : R) :
  (0 <= i < shape1 a)%Z -> set a i v = Some (<[Z.to_nat i := v]> a).
Proof. intros H. unfold set. by rewrite resolve_in_range. Qed.

Lemma set_shape1 (a a' : list R) (i : Z) (v : R) :
  set a i v = Some a' -> shape1 a' = shape1 a.
Proof.
  unfold set. destruct (resolve _ _); intros; simplify_eq/=.
  unfold shape1. by rewrite length_insert.
Qed.

Lemma get_is_Some (a : list R) (i : Z) :
  (0 <= i < shape1 a)%Z -> is_Some (get a i).
Proof.
  intros H. rewrite get_in_range by done.
  apply lookup_lt_is_Some. unfold shape1 in H. lia.
Qed.

(** The cursor arithmetic of the history buffer, without [mod]. *)
Lemma wrap_add (c j n : Z) :
  (0 <= c < n)%Z -> (0 <= j <= n)%Z ->
  ((c + j) mod n = if (c + j <? n) then c + j else c + j - n)%Z.
Proof.
  intros Hc Hj. destruct (Z.ltb_spec (c + j) n).
  - apply Z.mod_small. lia.
  - symmetry. apply Z.mod_unique with (q := 1%Z); lia.
Qed.

Lemma wrap_sub (c j n : Z) :
  (0 <= c < n)%Z -> (0 <= j <= n)%Z ->
  ((c - j) mod n = if (c - j <? 0) then c - j + n else c - j)%Z.
Proof.
  intros Hc Hj. destruct (Z.ltb_spec (c - j) 0).
  - symmetry. apply Z.mod_unique with (q := (-1)%Z); lia.
  - apply Z.mod_small. lia.
Qed.

Lemma floor_add_IZR (x : R) (z : Z) : floor (x + IZR z) = (floor x + z)%Z.
Proof.
  apply floor_unique. rewrite plus_IZR.
  pose proof (floor_bounds x). lra.
Qed.


Lemma ceil_not_integer (x : R) :
  x <> IZR (floor x) -> ceil x = (floor x + 1)%Z.
Proof.
  intros Hne. unfold ceil. pose proof (floor_bounds x) as [H1 H2].
  rewrite (floor_unique (- x) (- (floor x + 1))); [lia|].
  rewrite opp_IZR, plus_IZR. lra.
Qed.

Lemma zeros_Some (x : R) (a : list R) :
  zeros x = Some a ->
  shape1 a = trunc x /\ a = replicate (Z.to_nat (trunc x)) 0 /\
  (0 <= trunc x < 2 ^ 60)%Z.
Proof.
  unfold zeros.
  destruct (Z.ltb_spec (trunc x) 0); [done|].
  destruct (Z.leb_spec (2 ^ 60) (trunc x)); [done|]. simpl.
  intros [= <-]. unfold shape1. rewrite length_replicate.
  split; [lia|]. split; [done | lia].
Qed.

Lemma zeros_nonneg (x : R) :
  0 <= x -> (floor x < 2 ^ 60)%Z ->
  zeros x = Some (replicate (Z.to_nat (floor x)) 0).
Proof.
  intros Hx Hb. unfold zeros. rewrite trunc_nonneg by done.
  pose proof (floor_le x 0 Hx).
  destruct (Z.ltb_spec (floor x) 0); [lia|].
  destruct (Z.leb_spec (2 ^ 60) (floor x)); [lia | done].
Qed.

Lemma get_Some_lookup (a : list R) (i : Z) (v : R) :
  get a i = Some v -> exists j : nat, a !! j = Some v.
Proof.
  unfold get. destruct (resolve _ _) as [j|]; [|done]. simpl. by exists j.
Qed.

(** *** Rounding to the nearest integer *)

Lemma floor_mono (x y : R) : x <= y -> (floor x <= floor y)%Z.
Proof.
  intros Hxy. apply floor_le. pose proof (floor_bounds x). lra.
Qed.

Lemma rint_le_floor_succ (x : R) : (rint x <= floor x + 1)%Z.
Proof. destruct (rint_cases x) as [-> | ->]; lia. Qed.

Lemma rint_le_IZR (x : R) (z : Z) : x <= IZR z -> (rint x <= z)%Z.
Proof.
  intros Hx. pose proof (floor_bounds x) as [Hf1 Hf2].
  assert (floor x <= z)%Z as Hfz.
  { rewrite <- (floor_IZR z). by apply floor_mono. }
  destruct (decide (floor x = z)) as [Heq | Hne].
  - assert (x = IZR z) as -> by (rewrite Heq in Hf1; lra).
    rewrite rint_IZR. lia.
  - pose proof (rint_le_floor_succ x). lia.
Qed.


Lemma rint_error (x : R) : - (1 / 2) <= IZR (rint x) - x <= 1 / 2.
Proof.
  pose proof (floor_bounds x) as [H1 H2]. unfold rint.
  destruct (Rlt_dec _ _) as [Ha|Ha]; [lra|].
  destruct (Rlt_dec _ _) as [Hb|Hb]; [rewrite plus_IZR; lra|].
  destruct (Z.even _); [lra | rewrite plus_IZR; lra].
Qed.

Lemma rint_unique (x : R) (z : Z) :
  IZR z - 1 / 2 < x < IZR z + 1 / 2 -> rint x = z.
Proof.
  intros [H1 H2]. pose proof (rint_error x) as [H3 H4].
  assert (IZR (rint x) < IZR (z + 1)) as Ha%lt_IZR by (rewrite plus_IZR; lra).
  assert (IZR (z - 1) < IZR (rint x)) as Hb%lt_IZR by (rewrite minus_IZR; lra).
  lia.
Qed.

Lemma rint_mono (x y : R) : x <= y -> (rint x <= rint y)%Z.
Proof.
  intros H. pose proof (floor_mono _ _ H) as Hf.
  destruct (Z.eq_dec (floor x) (floor y)) as [He|Hne].
  - unfold rint. rewrite He.
    repeat destruct (Rlt_dec _ _); try lia; try lra;
      destruct (Z.even _); lia.
  - destruct (rint_cases x) as [-> | ->];
      destruct (rint_cases y) as [-> | ->]; lia.
Qed.

Lemma astype_int_in_range (z : Z) :
  (- 2 ^ 63 <= z < 2 ^ 63)%Z -> astype_int z = z.
Proof. intros H. unfold astype_int. by rewrite bool_decide_eq_true_2. Qed.

Lemma astype_int_range (z : Z) : (- 2 ^ 63 <= astype_int z < 2 ^ 63)%Z.
Proof. unfold astype_int. case_bool_decide; lia. Qed.

Lemma wrap64_in_range (z : Z) :
  (- 2 ^ 63 <= z < 2 ^ 63)%Z -> wrap64 z = z.
Proof. intros H. unfold wrap64. rewrite Z.mod_small; lia. Qed.

Lemma wrap64_above (z : Z) :
  (2 ^ 63 <= z < 2 ^ 64)%Z -> wrap64 z = (z - 2 ^ 64)%Z.
Proof.
  intros H. unfold wrap64.
  assert ((z + 2 ^ 63) mod 2 ^ 64 = z - 2 ^ 63)%Z as ->
    by (symmetry; apply (Z.mod_unique _ _ 1); lia).
  lia.
Qed.

(** *** Rounding to binary64 *)

Lemma ln2_pos : 0 < ln 2.
Proof. rewrite <- ln_1. apply ln_increasing; lra. Qed.

Lemma powerRZ_exp (z : Z) : powerRZ 2 z = exp (IZR z * ln 2).
Proof. by rewrite powerRZ_Rpower by lra. Qed.

Lemma powerRZ_mono (m n : Z) : (m <= n)%Z -> powerRZ 2 m <= powerRZ 2 n.
Proof.
  intros H. rewrite !powerRZ_exp. pose proof ln2_pos.
  apply IZR_le in H. destruct (Req_dec_T (IZR m) (IZR n)) as [->|Hne]; [lra|].
  left. apply exp_increasing. nra.
Qed.

Lemma powerRZ_IZR (n : Z) : (0 <= n)%Z -> powerRZ 2 n = IZR (2 ^ n).
Proof.
  intros Hn. rewrite <- (Z2Nat.id n) at 2 by done. rewrite <- pow_IZR.
  by destruct n as [|p|p]; [| | lia].
Qed.

Lemma exponent_spec (x : R) :
  x <> 0 -> powerRZ 2 (exponent x) <= Rabs x < powerRZ 2 (exponent x + 1).
Proof.
  intros Hx. pose proof (Rabs_pos_lt x Hx) as Ha. pose proof ln2_pos as H2.
  unfold exponent. set (t := ln (Rabs x) / ln 2).
  pose proof (floor_bounds t) as [H3 H4].
  assert (ln (Rabs x) = t * ln 2) as Hl by (unfold t; field; lra).
  clearbody t.
  rewrite !powerRZ_exp, plus_IZR, <- (exp_ln (Rabs x)), Hl by done.
  split.
  - destruct H3 as [H3|H3];
      [left; apply exp_increasing; nra | right; by rewrite H3].
  - apply exp_increasing. nra.
Qed.

Lemma ulp_pos (x : R) : 0 < ulp x.
Proof. apply powerRZ_lt. lra. Qed.

Lemma ulp_le (x : R) : x <> 0 -> ulp x <= Rabs x / 4503599627370496.
Proof.
  intros Hx. pose proof (exponent_spec x Hx) as [H1 _].
  unfold ulp. replace (exponent x - 52)%Z with (exponent x + - 52)%Z by lia.
  rewrite powerRZ_add by lra.
  replace (powerRZ 2 (-52)) with (/ 4503599627370496) by (simpl; lra).
  pose proof (powerRZ_lt 2 (exponent x)). nra.
Qed.

(** The relative error of a rounding is at most [2^-53]. *)
Lemma float64_error (x : R) :
  Rabs (float64 x - x) <= Rabs x / 9007199254740992.
Proof.
  unfold float64. destruct (Req_dec_T x 0) as [->|Hx].
  - rewrite Rminus_0_r, Rabs_R0. lra.
  - pose proof (ulp_pos x) as Hu. pose proof (ulp_le x Hx) as Hl.
    pose proof (rint_error (x / ulp x)) as [H1 H2].
    set (r := IZR (rint (x / ulp x))) in *.
    assert (x = x / ulp x * ulp x) as Hxe by (field; lra).
    set (t := x / ulp x) in *.
    assert (r * ulp x - x = (r - t) * ulp x) as ->
      by (rewrite Hxe at 2; ring).
    assert ((r - t) * ulp x <= 1 / 2 * ulp x)
      by (apply Rmult_le_compat_r; lra).
    assert (- (1 / 2) * ulp x <= (r - t) * ulp x)
      by (apply Rmult_le_compat_r; lra).
    apply Rabs_le. lra.
Qed.

Lemma float64_bounds (x : R) :
  0 <= x ->
  x - x / 9007199254740992 <= float64 x <= x + x / 9007199254740992.
Proof.
  intros Hx. pose proof (float64_error x) as H.
  rewrite (Rabs_pos_eq x) in H by done.
  pose proof (Rle_abs (float64 x - x)) as H1.
  pose proof (Rle_abs (- (float64 x - x))) as H2.
  rewrite Rabs_Ropp in H2. lra.
Qed.

Lemma float64_nonneg (x : R) : 0 <= x -> 0 <= float64 x.
Proof.
  intros H. unfold float64. destruct (Req_dec_T x 0); [lra|].
  pose proof (ulp_pos x) as Hu.
  assert (0 <= x / ulp x) as Hq
    by (apply Rmult_le_pos; [lra | left; by apply Rinv_0_lt_compat]).
  pose proof (rint_ge _ 0 Hq) as Hr. apply IZR_le in Hr. nra.
Qed.

(** Integers of at most 53 bits are binary64 numbers. *)
Lemma float64_IZR (z : Z) :
  (0 <= z < 2 ^ 53)%Z -> float64 (IZR z) = IZR z.
Proof.
  intros [H0 H1]. unfold float64.
  destruct (Req_dec_T (IZR z) 0) as [|Hz]; [done|].
  pose proof (exponent_spec _ Hz) as [He _].
  rewrite Rabs_pos_eq in He by (by apply IZR_le).
  set (e := exponent (IZR z)) in *.
  assert (e <= 52)%Z as Hle.
  { destruct (Z_lt_le_dec 52 e) as [Hlt|]; [|done].
    pose proof (powerRZ_mono 53 e ltac:(lia)) as Hm.
    rewrite (powerRZ_IZR 53) in Hm by lia.
    assert (IZR (2 ^ 53) <= IZR z) as Hc%le_IZR by lra. lia. }
  unfold ulp. fold e.
  assert (IZR z / powerRZ 2 (e - 52) = IZR (z * 2 ^ (52 - e))) as ->.
  { rewrite mult_IZR, <- powerRZ_IZR by lia.
    replace (52 - e)%Z with (- (e - 52))%Z by lia. by rewrite powerRZ_neg'. }
  rewrite rint_IZR, mult_IZR, <- powerRZ_IZR by lia.
  rewrite Rmult_assoc, <- powerRZ_add by lra.
  replace (52 - e + (e - 52))%Z with 0%Z by lia. simpl. lra.
Qed.

Lemma float64_lower (x : R) : 0 < x -> powerRZ 2 (exponent x) <= float64 x.
Proof.
  intros Hx. pose proof (exponent_spec x ltac:(lra)) as [He _].
  rewrite Rabs_pos_eq in He by lra.
  unfold float64. destruct (Req_dec_T x 0); [lra|].
  pose proof (ulp_pos x) as Hu. unfold ulp in *. set (e := exponent x) in *.
  assert (powerRZ 2 e = IZR (2 ^ 52) * powerRZ 2 (e - 52)) as Hp.
  { rewrite <- powerRZ_IZR, <- powerRZ_add by (lia || lra). f_equal. lia. }
  assert (IZR (2 ^ 52) <= x / powerRZ 2 (e - 52)) as Hq%rint_ge%IZR_le.
  { apply Rmult_le_reg_r with (powerRZ 2 (e - 52)); [done|].
    rewrite <- Hp. unfold Rdiv. rewrite Rmult_assoc, Rinv_l by lra. lra. }
  rewrite Hp. apply Rmult_le_compat_r; lra.
Qed.

Lemma float64_upper (x : R) :
  0 < x -> float64 x <= powerRZ 2 (exponent x + 1).
Proof.
  intros Hx. pose proof (exponent_spec x ltac:(lra)) as [_ He].
  rewrite Rabs_pos_eq in He by lra.
  unfold float64. destruct (Req_dec_T x 0); [lra|].
  pose proof (ulp_pos x) as Hu. unfold ulp in *. set (e := exponent x) in *.
  assert (powerRZ 2 (e + 1) = IZR (2 ^ 53) * powerRZ 2 (e - 52)) as Hp.
  { rewrite <- powerRZ_IZR, <- powerRZ_add by (lia || lra). f_equal. lia. }
  assert (x / powerRZ 2 (e - 52) <= IZR (2 ^ 53)) as Hq%rint_le_IZR%IZR_le.
  { apply Rmult_le_reg_r with (powerRZ 2 (e - 52)); [done|].
    rewrite <- Hp. unfold Rdiv. rewrite Rmult_assoc, Rinv_l by lra. lra. }
  rewrite Hp. apply Rmult_le_compat_r; lra.
Qed.

(** Rounding keeps the order of non-negative numbers. *)
Lemma float64_mono (x y : R) : 0 <= x <= y -> float64 x <= float64 y.
Proof.
  intros [H0 Hxy]. destruct (Req_dec_T x 0) as [->|Hx].
  { unfold float64 at 1. destruct (Req_dec_T 0 0); [|done].
    apply float64_nonneg. lra. }
  assert (0 < x) as Hpx by lra. assert (0 < y) as Hpy by lra.
  pose proof (exponent_spec x ltac:(lra)) as [Hx1 Hx2].
  pose proof (exponent_spec y ltac:(lra)) as [Hy1 Hy2].
  rewrite Rabs_pos_eq in Hx1, Hx2, Hy1, Hy2 by lra.
  destruct (Z_lt_le_dec (exponent y) (exponent x)) as [Hlt|Hle].
  { pose proof (powerRZ_mono (exponent y + 1) (exponent x) ltac:(lia)). lra. }
  destruct (Z.eq_dec (exponent x) (exponent y)) as [Heq|Hne].
  - unfold float64. destruct (Req_dec_T x 0), (Req_dec_T y 0); try lra.
    unfold ulp. rewrite Heq. pose proof (ulp_pos y) as Hu. unfold ulp in Hu.
    apply Rmult_le_compat_r; [lra|]. apply IZR_le, rint_mono.
    apply Rmult_le_compat_r; [|done]. left. by apply Rinv_0_lt_compat.
  - pose proof (float64_upper x Hpx). pose proof (float64_lower y Hpy).
    pose proof (powerRZ_mono (exponent x + 1) (exponent y) ltac:(lia)). lra.
Qed.


Lemma exponent_unique (x : R) (e : Z) :
  powerRZ 2 e <= Rabs x < powerRZ 2 (e + 1) -> exponent x = e.
Proof.
  intros [H1 H2].
  assert (x <> 0) as Hx.
  { intros ->. rewrite Rabs_R0 in H1. pose proof (powerRZ_lt 2 e). lra. }
  pose proof (exponent_spec x Hx) as [H3 H4].
  destruct (Z_lt_le_dec (exponent x) e) as [Hlt|Hge].
  - pose proof (powerRZ_mono (exponent x + 1) e ltac:(lia)). lra.
  - destruct (Z_lt_le_dec e (exponent x)) as [Hlt|Hle]; [|lia].
    pose proof (powerRZ_mono (e + 1) (exponent x) ltac:(lia)). lra.
Qed.

(** The rounding of a positive number, from its exponent and its
    significand. *)
Lemma float64_eq (x : R) (e m : Z) :
  powerRZ 2 e <= x < powerRZ 2 (e + 1) ->
  IZR m - 1 / 2 < x / powerRZ 2 (e - 52) < IZR m + 1 / 2 ->
  float64 x = IZR m * powerRZ 2 (e - 52).
Proof.
  intros Hx Hm. pose proof (powerRZ_lt 2 e ltac:(lra)) as Hpe.
  assert (exponent x = e) as He.
  { apply exponent_unique. by rewrite Rabs_pos_eq by lra. }
  unfold float64. destruct (Req_dec_T x 0); [lra|].
  unfold ulp. rewrite He. by rewrite (rint_unique _ m).
Qed.


Lemma float64_ge_IZR (x : R) (z : Z) :
  (0 <= z < 2 ^ 53)%Z -> IZR z <= x -> IZR z <= float64 x.
Proof.
  intros Hz Hx. rewrite <- (float64_IZR z) by done.
  apply float64_mono. split; [apply IZR_le; lia | done].
Qed.

Lemma float64_le_IZR (x : R) (z : Z) :
  (0 <= z < 2 ^ 53)%Z -> 0 <= x <= IZR z -> float64 x <= IZR z.
Proof.
  intros Hz Hx. rewrite <- (float64_IZR z) by done. by apply float64_mono.
Qed.

Lemma float64_nonpos (x : R) : x <= 0 -> float64 x <= 0.
Proof.
  intros H. unfold float64. destruct (Req_dec_T x 0); [lra|].
  pose proof (ulp_pos x) as Hu.
  assert (x / ulp x <= 0) as Hq.
  { assert (0 < / ulp x) by (by apply Rinv_0_lt_compat). unfold Rdiv. nra. }
  apply (rint_le_IZR _ 0) in Hq. apply IZR_le in Hq. nra.
Qed.

(** A binary64 number above [2^61] is a multiple of 512. *)
Lemma float64_granular (x : R) :
  IZR (2 ^ 61) < float64 x -> exists t : Z, float64 x = IZR (512 * t).
Proof.
  intros Hf.
  assert (0 < x) as Hx.
  { destruct (Rle_or_lt x 0) as [Hle|]; [|done].
    apply float64_nonpos in Hle.
    assert (0 < IZR (2 ^ 61)) by (apply IZR_lt; lia). lra. }
  pose proof (float64_upper x Hx) as Hup.
  set (E := exponent x) in *.
  assert (61 <= E)%Z as HE.
  { destruct (Z_lt_le_dec E 61) as [Hlt|]; [|done].
    pose proof (powerRZ_mono (E + 1) 61 ltac:(lia)) as Hm.
    rewrite (powerRZ_IZR 61) in Hm by lia. lra. }
  exists (rint (x / ulp x) * 2 ^ (E - 61))%Z.
  unfold float64. destruct (Req_dec_T x 0); [lra|].
  unfold ulp. fold E.
  rewrite (powerRZ_IZR (E - 52)) by lia. rewrite <- mult_IZR. f_equal.
  replace (E - 52)%Z with (9 + (E - 61))%Z by lia.
  rewrite Z.pow_add_r by lia. lia.
Qed.

(** The delay that the cast yields, plus a small constant, is within
    the 64-bit integers: the sum does not wrap around. *)
Lemma delay_sum_in_range (x : R) (add : Z) :
  (0 <= add < 512)%Z ->
  let k := astype_int (rint (float64 x)) in
  (- 2 ^ 63 <= k + add < 2 ^ 63)%Z.
Proof.
  intros Hadd k. unfold k, astype_int. case_bool_decide as Hr; [|lia].
  split; [lia|].
  destruct (Z_lt_le_dec (rint (float64 x)) (2 ^ 62)) as [|Hge]; [lia|].
  pose proof (rint_error (float64 x)) as [_ He].
  apply IZR_le in Hge.
  assert (IZR (2 ^ 61) < float64 x) as Hf.
  { assert (IZR (2 ^ 62) = 2 * IZR (2 ^ 61)) as Hp
      by (rewrite <- mult_IZR; f_equal).
    assert (1 <= IZR (2 ^ 61)) by (apply IZR_le; lia). lra. }
  destruct (float64_granular x Hf) as [t Ht].
  rewrite Ht, rint_IZR in Hr |- *. lia.
Qed.

Lemma fdiv_nonneg (x y : R) : 0 <= x -> 0 < y -> 0 <= fdiv x y.
Proof.
  intros Hx Hy. apply float64_nonneg, Rmult_le_pos; [done|].
  left. by apply Rinv_0_lt_compat.
Qed.

Lemma fdiv_mono (x x' y : R) :
  0 <= x <= x' -> 0 < y -> fdiv x y <= fdiv x' y.
Proof.
  intros [H0 Hx] Hy. assert (0 < / y) by (by apply Rinv_0_lt_compat).
  apply float64_mono. unfold Rdiv. split; [by apply Rmult_le_pos; [|left]|].
  apply Rmult_le_compat_r; lra.
Qed.

Lemma fdiv_integer (x y : R) (z : Z) :
  (0 <= z < 2 ^ 53)%Z -> x / y = IZR z -> fdiv x y = IZR z.
Proof. intros Hz Hq. unfold fdiv. rewrite Hq. by apply float64_IZR. Qed.


End NumpyFacts.

(** ** Properties of the dynamics profile *)
Module TamuraFacts.
Import Numpy NumpyFacts Tamura.

(** *** The delayed-sample index *)

Lemma _get_index_eq (self : TamuraDynamics) (k : Z) :
  let n := shape1 (early_memory self) in
  (0 <= k)%Z -> (0 <= memory_index self < n)%Z ->
  _get_index self k = ((memory_index self - Z.min k n) mod n)%Z.
Proof.
  intros n Hk Hc. unfold _get_index. fold n.
  rewrite wrap_sub by lia. done.
Qed.

Lemma _get_index_range (self : TamuraDynamics) (k : Z) :
  let n := shape1 (early_memory self) in
  (0 <= k)%Z -> (0 <= memory_index self < n)%Z ->
  (0 <= _get_index self k < n)%Z.
Proof.
  intros n Hk Hc. unfold _get_index. fold n.
  destruct (Z.ltb_spec (memory_index self - Z.min k n) 0); lia.
Qed.

(** C5: for a delay [k >= 0] and a cursor inside the buffer, the index
    that [_get_index] computes is [(cursor - min(k, buffer_length)) mod
    buffer_length], it lies in [[0, buffer_length)], and reading either
    history sequence at it raises no [IndexError]. *)
Theorem get_index_in_bounds (self : TamuraDynamics) (k : Z) :
  let n := shape1 (early_memory self) in
  (0 <= k)%Z -> buffer_ok self ->
  _get_index self k = ((memory_index self - Z.min k n) mod n)%Z /\
  (0 <= _get_index self k < n)%Z /\
  is_Some (get (early_memory self) (_get_index self k)) /\
  is_Some (get (late_memory self) (_get_index self k)).
Proof.
  intros n Hk [Hlen Hc].
  pose proof (_get_index_range self k Hk Hc) as Hr.
  split; [by apply _get_index_eq|]. split; [done|].
  split; apply get_is_Some; [done | by rewrite Hlen].
Qed.

Lemma get_index_in_bounds_witness :
  let self := Examples.engine (5 / 1000) (9 / 100) (1 / 4) 40
                [1; 2; 3] [4; 5; 6] 1 (0, 0) 0 in
  (0 <= _get_index self 5 < 3)%Z.
Proof.
  intros self.
  assert (buffer_ok self) as Hok by (unfold buffer_ok, shape1; simpl; lia).
  exact (proj1 (proj2 (get_index_in_bounds self 5 ltac:(lia) Hok))).
Defined.

(** *** The integer arithmetic of the source *)

(** Reading at the index computed on 64-bit integers is reading at the
    index computed on [Z]: where the subtraction wraps around, both
    indices are outside the history. *)
Lemma get_index_int64 (self : TamuraDynamics) (k : Z) (a : list R) :
  (0 <= memory_index self < shape1 (early_memory self))%Z ->
  (shape1 (early_memory self) < 2 ^ 60)%Z ->
  shape1 a = shape1 (early_memory self) ->
  (- 2 ^ 63 <= k < 2 ^ 63)%Z ->
  get a (_get_index_int64 self k) = get a (_get_index self k).
Proof.
  intros Hc Hn Ha Hk. unfold _get_index_int64, _get_index.
  set (n := shape1 (early_memory self)) in *.
  set (r := (memory_index self - Z.min k n)%Z).
  destruct (Z_lt_le_dec r (2 ^ 63)) as [Hlt | Hge].
  - rewrite (wrap64_in_range r) by (unfold r; lia).
    destruct (Z.ltb_spec r 0); [|done].
    by rewrite wrap64_in_range by (unfold r in *; lia).
  - rewrite (wrap64_above r) by (unfold r in *; lia).
    destruct (Z.ltb_spec (r - 2 ^ 64) 0); [|unfold r in *; lia].
    rewrite wrap64_in_range by (unfold r in *; lia).
    destruct (Z.ltb_spec r 0); [lia|].
    unfold get, resolve. rewrite Ha. fold n.
    rewrite !bool_decide_eq_false_2 by (unfold r in *; lia). done.
Qed.

(** On a well-shaped history of a length that [np.zeros] can allocate,
    the lagged rates read with the 64-bit arithmetic of the source are
    those read with the arithmetic on [Z], for every latency, raised
    [IndexError] included. *)
Lemma lagged_rates_int64 (self : TamuraDynamics) (latencies : R) :
  buffer_ok self ->
  (shape1 (early_memory self) < 2 ^ 60)%Z ->
  (0 <= late_additional_latency self < 512)%Z ->
  _get_lagged_rates_int64 self latencies = _get_lagged_rates self latencies.
Proof.
  intros [Hlen Hc] Hn Hadd. unfold _get_lagged_rates_int64, _get_lagged_rates.
  unfold fdiv.
  pose proof (delay_sum_in_range (latencies / dt self) _ Hadd) as Hs.
  simpl in Hs.
  set (k := astype_int (rint (float64 (latencies / dt self)))) in *.
  pose proof (astype_int_range (rint (float64 (latencies / dt self)))) as Hk.
  fold k in Hk.
  rewrite (wrap64_in_range (k + _)) by done.
  rewrite (get_index_int64 self k (early_memory self)) by done.
  rewrite (get_index_int64 self _ (late_memory self)) by done.
  done.
Qed.

(** *** The latency model *)

Lemma exp_neg_div_le (r1 r2 tau : R) :
  0 < tau -> r1 <= r2 -> exp (- r2 / tau) <= exp (- r1 / tau).
Proof.
  intros Htau Hr.
  assert (0 < / tau) as Hi by by apply Rinv_0_lt_compat.
  destruct (Req_dec r1 r2) as [-> | Hne]; [lra|].
  left. apply exp_increasing. unfold Rdiv. nra.
Qed.

Lemma exp_neg_div_bounds (r tau : R) :
  0 < tau -> 0 <= r -> 0 < exp (- r / tau) <= 1.
Proof.
  intros Htau Hr. split; [apply exp_pos|].
  pose proof (exp_neg_div_le 0 r tau Htau Hr) as H.
  replace (- 0 / tau) with 0 in H by (unfold Rdiv; ring).
  by rewrite exp_0 in H.
Qed.

(** C2: the latency is [min_latency + (max_latency - min_latency) *
    exp(-static_rate / tau_latency)]; when [min_latency <= max_latency]
    and [tau_latency > 0] it does not increase with the static rate on
    [static_rate >= 0] and stays within [[min_latency, max_latency]]. *)
Theorem get_latencies_contract (self : TamuraDynamics) :
  min_latencies self <= max_latencies self ->
  0 < tau_latencies self ->
  (forall r, 0 <= r ->
     _get_latencies self r =
     min_latencies self +
     (max_latencies self - min_latencies self) * exp (- r / tau_latencies self)) /\
  (forall r1 r2, 0 <= r1 -> r1 <= r2 ->
     _get_latencies self r2 <= _get_latencies self r1) /\
  (forall r, 0 <= r ->
     min_latencies self <= _get_latencies self r <= max_latencies self).
Proof.
  intros Hmm Htau. split; [done|]. split.
  - intros r1 r2 H1 H12. unfold _get_latencies.
    pose proof (exp_neg_div_le r1 r2 _ Htau H12) as He.
    apply Rplus_le_compat_l, Rmult_le_compat_l; [lra | exact He].
  - intros r Hr. unfold _get_latencies.
    pose proof (exp_neg_div_bounds r _ Htau Hr) as He.
    set (e := exp _) in *. nra.
Qed.

Lemma get_latencies_contract_witness :
  let self := Examples.engine (5 / 1000) (9 / 100) (1 / 4) 40
                [1; 2; 3] [4; 5; 6] 1 (0, 0) 0 in
  _get_latencies self 50 <= _get_latencies self 10 /\
  9 / 100 <= _get_latencies self 10 <= 1 / 4.
Proof.
  intros self.
  assert (min_latencies self <= max_latencies self) as H1 by (simpl; lra).
  assert (0 < tau_latencies self) as H2 by (simpl; lra).
  destruct (get_latencies_contract self H1 H2) as (_ & Hmono & Hbound).
  split.
  - apply Hmono; lra.
  - apply (Hbound 10). lra.
Defined.

(** *** One step of [get_dynamic_rates] *)

Lemma advance_mod (n c : Z) :
  (0 <= c < n)%Z -> advance n c = ((c + 1) mod n)%Z.
Proof.
  intros Hc. unfold advance. rewrite wrap_add by lia.
  case_bool_decide; destruct (Z.ltb_spec (c + 1) n); lia.
Qed.

Lemma written_Some (self : TamuraDynamics) (er lr : R) :
  buffer_ok self ->
  written self er lr =
  Some (with_memory self
          (<[Z.to_nat (memory_index self) := er]> (early_memory self))
          (<[Z.to_nat (memory_index self) := lr]> (late_memory self))).
Proof.
  intros [Hlen Hc]. unfold written.
  rewrite !set_in_range by (rewrite ?Hlen; done). done.
Qed.

Lemma written_buffer_ok (self self1 : TamuraDynamics) (er lr : R) :
  buffer_ok self -> written self er lr = Some self1 ->
  buffer_ok self1 /\
  shape1 (early_memory self1) = shape1 (early_memory self) /\
  memory_index self1 = memory_index self.
Proof.
  intros Hok. rewrite written_Some by done. intros [= <-].
  destruct Hok as [Hlen Hc]. unfold buffer_ok, shape1 in *. simpl.
  rewrite !length_insert. lia.
Qed.

(** [get_dynamic_rates] in three stages: write, read, advance and
    integrate. *)
Lemma get_dynamic_rates_stages (self : TamuraDynamics) (er lr : R) :
  get_dynamic_rates self er lr =
  self1 ← written self er lr;
  lagged ← _get_lagged_rates self1 (_get_latencies self1 er);
  Some (_step_dynamics
          (with_memory_index self1
             (advance (shape1 (early_memory self1)) (memory_index self1)))
          lagged.1 lagged.2).
Proof.
  unfold get_dynamic_rates, written.
  destruct (set (early_memory self) _ _) as [em|]; [|done]. simpl.
  destruct (set (late_memory self) _ _) as [lm|]; [|done]. simpl.
  destruct (_get_lagged_rates _ _) as [[eu lu]|]; [|done]. simpl.
  unfold advance. case_bool_decide; done.
Qed.

Lemma _get_lagged_rates_Some (self : TamuraDynamics) (latencies : R) :
  buffer_ok self ->
  (0 <= astype_int (rint (fdiv latencies (dt self))))%Z ->
  (0 <= late_additional_latency self)%Z ->
  is_Some (_get_lagged_rates self latencies).
Proof.
  intros [Hlen Hc] Hk Hl. unfold _get_lagged_rates.
  set (k := astype_int (rint (fdiv latencies (dt self)))) in *.
  destruct (get_is_Some (early_memory self) (_get_index self k)) as [eu ->].
  { by apply _get_index_range. }
  destruct (get_is_Some (late_memory self)
              (_get_index self (k + late_additional_latency self)))
    as [lu ->].
  { rewrite Hlen. apply _get_index_range; [lia | done]. }
  by eexists.
Qed.

(** A step on a well-shaped buffer that asks for a non-negative delay
    raises nothing. *)
Lemma get_dynamic_rates_returns (self : TamuraDynamics) (er lr : R) :
  buffer_ok self ->
  (0 <= latency_steps self er)%Z ->
  (0 <= late_additional_latency self)%Z ->
  is_Some (get_dynamic_rates self er lr).
Proof.
  intros Hok Hk Hl. rewrite get_dynamic_rates_stages.
  rewrite written_Some by done. simpl.
  destruct (_get_lagged_rates_Some
              (with_memory self
                 (<[Z.to_nat (memory_index self) := er]> (early_memory self))
                 (<[Z.to_nat (memory_index self) := lr]> (late_memory self)))
              (_get_latencies self er)) as [lagged Hlag].
  - by apply (written_buffer_ok self _ er lr Hok), written_Some.
  - done.
  - done.
  - unfold _get_latencies in *. simpl in *. rewrite Hlag. by eexists.
Qed.

(** What a returning step leaves in the object. *)
Lemma get_dynamic_rates_frame (self self' : TamuraDynamics) (er lr y : R) :
  buffer_ok self ->
  get_dynamic_rates self er lr = Some (y, self') ->
  early_memory self' = <[Z.to_nat (memory_index self) := er]> (early_memory self) /\
  late_memory self' = <[Z.to_nat (memory_index self) := lr]> (late_memory self) /\
  memory_index self' =
    advance (shape1 (early_memory self)) (memory_index self) /\
  dt self' = dt self /\
  min_latencies self' = min_latencies self /\
  max_latencies self' = max_latencies self /\
  tau_latencies self' = tau_latencies self /\
  late_additional_latency self' = late_additional_latency self.
Proof.
  intros Hok. rewrite get_dynamic_rates_stages, written_Some by done. simpl.
  destruct (_get_lagged_rates _ _) as [lagged|]; [|done]. simpl.
  unfold _step_dynamics.
  destruct (integrate _ _ _ _ _ _) as [ex ey].
  destruct (integrate _ _ _ _ _ _) as [lx ly].
  intros [= <- <-]. simpl.
  unfold shape1. rewrite length_insert. done.
Qed.

Lemma get_dynamic_rates_buffer_ok (self self' : TamuraDynamics) (er lr y : R) :
  buffer_ok self ->
  get_dynamic_rates self er lr = Some (y, self') ->
  buffer_ok self' /\ shape1 (early_memory self') = shape1 (early_memory self).
Proof.
  intros Hok Hstep.
  destruct (get_dynamic_rates_frame _ _ _ _ _ Hok Hstep)
    as (He & Hl & Hi & _).
  destruct Hok as [Hlen Hc]. unfold buffer_ok, shape1 in *.
  rewrite He, Hl, Hi, !length_insert. unfold advance.
  case_bool_decide; lia.
Qed.

(** What a returning step has read and computed. *)
Lemma get_dynamic_rates_inv
    (self self' : TamuraDynamics) (early_rates late_rates y : R) :
  get_dynamic_rates self early_rates late_rates = Some (y, self') ->
  exists self1 early_u late_u,
    written self early_rates late_rates = Some self1 /\
    get (early_memory self1)
        (_get_index self1 (latency_steps self1 early_rates)) = Some early_u /\
    get (late_memory self1)
        (_get_index self1 (latency_steps self1 early_rates
                           + late_additional_latency self1)) = Some late_u /\
    let early :=
      integrate (dt self)
        (scale_m (1 / early_tau self) (early_A self))
        (scale_v (1 / early_tau self) (early_B self))
        (early_C self) (early_x self) early_u in
    let late :=
      integrate (dt self)
        (1 / late_tau self * late_A self) (1 / late_tau self * late_B self)
        (late_C self) (late_x self) late_u in
    y = Rmax 0 early.2 + late.2 /\
    early_x self' = early.1 /\ late_x self' = late.1.
Proof.
  rewrite get_dynamic_rates_stages.
  destruct (written self early_rates late_rates) as [self1|] eqn:Hw; [|done].
  simpl. unfold _get_lagged_rates. fold (latency_steps self1 early_rates).
  destruct (get (early_memory self1) _) as [early_u|] eqn:He; [|done].
  destruct (get (late_memory self1) _) as [late_u|] eqn:Hl; [|done].
  simpl. intros [= <- <-].
  exists self1, early_u, late_u. split; [done|]. split; [done|]. split; [done|].
  unfold written in Hw.
  destruct (set (early_memory self) _ _); [|done].
  destruct (set (late_memory self) _ _); [|done].
  simpl in Hw. injection Hw as <-. done.
Qed.

(** The two Euler steps of [_step_dynamics], component by component. *)
Lemma integrate_early_explicit (dt tau u : R) (a : mat2) (b c x : vec2) :
  let x1 := x.1 + (1 / tau * a.1.1 * x.1 + 1 / tau * a.1.2 * x.2
                   + 1 / tau * b.1 * u) * dt in
  let x2 := x.2 + (1 / tau * a.2.1 * x.1 + 1 / tau * a.2.2 * x.2
                   + 1 / tau * b.2 * u) * dt in
  integrate dt (scale_m (1 / tau) a) (scale_v (1 / tau) b) c x u =
  ((x1, x2), c.1 * x1 + c.2 * x2).
Proof. done. Qed.

Lemma integrate_late_explicit (dt tau u a b c x : R) :
  let x1 := x + (1 / tau * a * x + 1 / tau * b * u) * dt in
  integrate dt (1 / tau * a) (1 / tau * b) c x u = (x1, c * x1).
Proof. done. Qed.

Lemma engine30_buffer_ok : buffer_ok Examples.engine30.
Proof. unfold buffer_ok, shape1. simpl. lia. Qed.

(** With both latency parameters at 0.095 and a time step of 0.005 every
    rate asks for a delay of 19 steps. *)
Lemma latency_steps_19 (self : TamuraDynamics) (r : R) :
  min_latencies self = 95 / 1000 -> max_latencies self = 95 / 1000 ->
  dt self = 5 / 1000 ->
  latency_steps self r = 19%Z.
Proof.
  intros Hmin Hmax Hdt.
  unfold latency_steps, _get_latencies, fdiv. rewrite Hmin, Hmax, Hdt.
  set (e := exp _).
  replace ((95 / 1000 + (95 / 1000 - 95 / 1000) * e) / (5 / 1000))
    with (IZR 19) by lra.
  rewrite float64_IZR, rint_IZR by lia. by apply astype_int_in_range.
Qed.

Lemma engine30_latency_steps (r : R) :
  latency_steps Examples.engine30 r = 19%Z.
Proof. by apply latency_steps_19. Qed.

Lemma driven_buffer_ok (ex : vec2) (lx l : R) :
  buffer_ok (Examples.driven ex lx l).
Proof. unfold buffer_ok, shape1. simpl. lia. Qed.

(** What a step of the driven profile reads, whatever it writes. *)
Lemma driven_reads (ex : vec2) (lx l er lr : R) (self1 : TamuraDynamics) :
  written (Examples.driven ex lx l) er lr = Some self1 ->
  get (early_memory self1) (_get_index self1 (latency_steps self1 er))
    = Some 50 /\
  get (late_memory self1)
      (_get_index self1 (latency_steps self1 er
                         + late_additional_latency self1)) = Some l.
Proof.
  rewrite written_Some by apply driven_buffer_ok. intros [= <-].
  rewrite latency_steps_19 by done. done.
Qed.

(** C1: a call of the per-step update on a well-shaped history that
    asks for a non-negative delay returns, and whenever the update
    returns, the rate it returns is [max(0, early_output) +
    late_output].  [early_output] is the output [c . x'] of the early
    (two-state) system after one Euler step [x' = x + (a x + b u) dt]
    with [a = early_A / early_tau], [b = early_B / early_tau] on the
    early history [u] read at the latency delay; [late_output] is that
    of the late (one-state) system on the late history read at the
    latency delay plus [late_additional_latency].  A negative early
    output contributes nothing, the late output enters as it is,
    whatever its sign, and the states the step leaves are those of the
    two Euler steps. *)
Theorem get_dynamic_rates_output
    (self : TamuraDynamics) (early_rates late_rates : R) :
  (buffer_ok self ->
   (0 <= latency_steps self early_rates)%Z ->
   (0 <= late_additional_latency self)%Z ->
   is_Some (get_dynamic_rates self early_rates late_rates)) /\
  forall (y : R) (self' : TamuraDynamics),
  get_dynamic_rates self early_rates late_rates = Some (y, self') ->
  exists self1 early_u late_u,
    written self early_rates late_rates = Some self1 /\
    get (early_memory self1)
        (_get_index self1 (latency_steps self1 early_rates)) = Some early_u /\
    get (late_memory self1)
        (_get_index self1 (latency_steps self1 early_rates
                           + late_additional_latency self1)) = Some late_u /\
    let ke := 1 / early_tau self in
    let kl := 1 / late_tau self in
    let x1 := (early_x self).1
              + (ke * (early_A self).1.1 * (early_x self).1
                 + ke * (early_A self).1.2 * (early_x self).2
                 + ke * (early_B self).1 * early_u) * dt self in
    let x2 := (early_x self).2
              + (ke * (early_A self).2.1 * (early_x self).1
                 + ke * (early_A self).2.2 * (early_x self).2
                 + ke * (early_B self).2 * early_u) * dt self in
    let xl := late_x self
              + (kl * late_A self * late_x self
                 + kl * late_B self * late_u) * dt self in
    let early_output := (early_C self).1 * x1 + (early_C self).2 * x2 in
    let late_output := late_C self * xl in
    y = Rmax 0 early_output + late_output /\
    (early_output <= 0 -> y = late_output) /\
    (0 <= early_output -> y = early_output + late_output) /\
    early_x self' = (x1, x2) /\ late_x self' = xl.
Proof.
  split; [apply get_dynamic_rates_returns|].
  intros y self' Hstep.
  destruct (get_dynamic_rates_inv _ _ _ _ _ Hstep)
    as (self1 & early_u & late_u & Hw & He & Hl & Hy & Hex & Hlx).
  exists self1, early_u, late_u.
  split; [done|]. split; [done|]. split; [done|].
  rewrite integrate_early_explicit in Hy, Hex.
  rewrite integrate_late_explicit in Hy, Hlx.
  simpl in Hy, Hex, Hlx. intros ke kl x1 x2 xl early_output late_output.
  split; [exact Hy|]. split; [|split; [|split; [exact Hex | exact Hlx]]].
  - intros Hneg. rewrite Hy. fold ke kl x1 x2 xl early_output late_output.
    rewrite Rmax_left by done. lra.
  - intros Hpos. rewrite Hy. fold ke kl x1 x2 xl early_output late_output.
    by rewrite Rmax_right.
Qed.

(** Two steps of the driven profile, each writing the rates [(3, 4)] at
    the cursor and reading 50 from the early history, 19 steps back,
    and the late sample 29 steps back.  With the early states at
    [(10, 40)] and a late sample of 25 the early output is negative and
    contributes nothing: the rate is the late output, 7.  With the early
    states at [(40, 10)] and a late sample of -25 the early output is
    [20500 / 221] and the late output, -7, enters unclipped. *)
Lemma get_dynamic_rates_output_witness :
  (exists self',
     get_dynamic_rates (Examples.driven (10, 40) 5 25) 3 4
       = Some (7, self') /\
     early_x self' = (370 / 17, 530 / 17) /\ late_x self' = 7) /\
  (exists self',
     get_dynamic_rates (Examples.driven (40, 10) (-5) (-25)) 3 4
       = Some (20500 / 221 - 7, self') /\
     early_x self' = (730 / 17, 320 / 17) /\ late_x self' = -7).
Proof.
  split.
  - destruct (get_dynamic_rates_output (Examples.driven (10, 40) 5 25) 3 4)
      as [Hret Hout].
    destruct Hret as [[y self'] Hstep].
    + apply driven_buffer_ok.
    + rewrite latency_steps_19 by done. lia.
    + simpl. lia.
    + destruct (Hout _ _ Hstep)
        as (self1 & early_u & late_u & Hw & He & Hl & Hy & _ & _ & Hex & Hlx).
      destruct (driven_reads _ _ _ _ _ _ Hw) as [He' Hl'].
      rewrite He' in He. rewrite Hl' in Hl.
      injection He as <-. injection Hl as <-.
      simpl in Hy, Hex, Hlx.
      exists self'. rewrite Hstep, Hex, Hlx.
      split; [|split; [f_equal; lra | lra]].
      do 2 f_equal. rewrite Hy, Rmax_left; lra.
  - destruct (get_dynamic_rates_output
                (Examples.driven (40, 10) (-5) (-25)) 3 4)
      as [Hret Hout].
    destruct Hret as [[y self'] Hstep].
    + apply driven_buffer_ok.
    + rewrite latency_steps_19 by done. lia.
    + simpl. lia.
    + destruct (Hout _ _ Hstep)
        as (self1 & early_u & late_u & Hw & He & Hl & Hy & _ & _ & Hex & Hlx).
      destruct (driven_reads _ _ _ _ _ _ Hw) as [He' Hl'].
      rewrite He' in He. rewrite Hl' in Hl.
      injection He as <-. injection Hl as <-.
      simpl in Hy, Hex, Hlx.
      exists self'. rewrite Hstep, Hex, Hlx.
      split; [|split; [f_equal; lra | lra]].
      do 2 f_equal. rewrite Hy, Rmax_right; lra.
Defined.

(** *** Sequences of steps *)

Lemma run_app (self : TamuraDynamics) (xs ys : list (R * R)) :
  run self (xs ++ ys) =
  r1 ← run self xs; r2 ← run r1.2 ys; Some (r1.1 ++ r2.1, r2.2).
Proof.
  revert self. induction xs as [|[er lr] xs IH]; intros self; simpl.
  - by destruct (run self ys) as [[??]|].
  - destruct (get_dynamic_rates self er lr) as [[y self1]|]; [|done]. simpl.
    rewrite IH. destruct (run self1 xs) as [[o1 s1]|]; [|done]. simpl.
    by destruct (run s1 ys) as [[??]|].
Qed.

Lemma run_snoc (self self' : TamuraDynamics) (xs : list (R * R))
    (er lr : R) (outs : list R) :
  run self (xs ++ [(er, lr)]) = Some (outs, self') ->
  exists outs1 self1 y,
    run self xs = Some (outs1, self1) /\
    get_dynamic_rates self1 er lr = Some (y, self') /\
    outs = outs1 ++ [y].
Proof.
  rewrite run_app. destruct (run self xs) as [[outs1 self1]|]; [|done].
  simpl. destruct (get_dynamic_rates self1 er lr) as [[y s]|] eqn:Hstep; [|done].
  cbn. intros [= <- <-]. by exists outs1, self1, y.
Qed.

(** After [N <= buffer_length] steps from cursor [c], the cursor is at
    [(c + N) mod buffer_length] and slot [(c + j) mod buffer_length]
    holds the input of step [j]. *)
Lemma run_history (self : TamuraDynamics) (inputs : list (R * R)) :
  let n := shape1 (early_memory self) in
  let c := memory_index self in
  forall outs self',
  buffer_ok self ->
  run self inputs = Some (outs, self') ->
  (length inputs <= length (early_memory self))%nat ->
  buffer_ok self' /\
  shape1 (early_memory self') = n /\
  memory_index self' = ((c + Z.of_nat (length inputs)) mod n)%Z /\
  forall (j : nat) (x : R * R),
    inputs !! j = Some x ->
    early_memory self' !! Z.to_nat ((c + Z.of_nat j) mod n) = Some x.1 /\
    late_memory self' !! Z.to_nat ((c + Z.of_nat j) mod n) = Some x.2.
Proof.
  intros n c. induction inputs as [|[er lr] inputs IH] using rev_ind;
    intros outs self' Hok Hrun Hlen.
  - simpl in Hrun. injection Hrun as <- <-.
    split; [done|]. split; [done|]. split.
    + simpl. rewrite Z.add_0_r, Z.mod_small; [done | apply Hok].
    + intros j x Hj. done.
  - apply run_snoc in Hrun as (outs1 & self1 & y & Hrun & Hstep & ->).
    rewrite length_app in Hlen. simpl in Hlen.
    destruct (IH _ _ Hok Hrun ltac:(lia)) as (Hok1 & Hn1 & Hc1 & Hmem).
    destruct (get_dynamic_rates_buffer_ok _ _ _ _ _ Hok1 Hstep) as [Hok' Hn'].
    destruct (get_dynamic_rates_frame _ _ _ _ _ Hok1 Hstep)
      as (He & Hl & Hi & _).
    assert (0 <= c < n)%Z as Hc by apply Hok.
    assert (Z.of_nat (length inputs) < n)%Z as HN
      by (unfold n, shape1; lia).
    split; [done|]. split; [congruence|]. split.
    + rewrite Hi, Hn1, Hc1, length_app. simpl.
      rewrite advance_mod by (apply Z.mod_pos_bound; lia).
      rewrite Z.add_mod_idemp_l by lia. f_equal. lia.
    + intros j x Hj. rewrite He, Hl, Hc1.
      destruct (decide (j = length inputs)) as [-> | Hne].
      * rewrite lookup_app_r, Nat.sub_diag in Hj by lia.
        injection Hj as <-. simpl.
        assert (Z.to_nat ((c + Z.of_nat (length inputs)) mod n)
                < length (early_memory self1))%nat as Hlt.
        { pose proof (Z.mod_pos_bound (c + Z.of_nat (length inputs)) n).
          unfold shape1 in Hn1. lia. }
        rewrite !list_lookup_insert_eq; [done | | done].
        destruct Hok1 as [Hll _]. unfold shape1 in Hll. lia.
      * assert (j < length inputs)%nat as Hjlt.
        { apply lookup_lt_Some in Hj. rewrite length_app in Hj.
          simpl in Hj. lia. }
        rewrite lookup_app_l in Hj by done.
        rewrite !list_lookup_insert_ne; [by apply Hmem | |].
        all: rewrite !wrap_add by lia;
          repeat match goal with
                 | |- context [(?a <? ?b)%Z] => destruct (Z.ltb_spec a b)
                 end; lia.
Qed.

(** A run keeps the shape of the buffer and the latency parameters. *)
Lemma run_invariant (self : TamuraDynamics) (inputs : list (R * R)) :
  forall outs self',
  buffer_ok self ->
  run self inputs = Some (outs, self') ->
  buffer_ok self' /\
  shape1 (early_memory self') = shape1 (early_memory self) /\
  shape1 (late_memory self') = shape1 (late_memory self) /\
  dt self' = dt self /\
  min_latencies self' = min_latencies self /\
  max_latencies self' = max_latencies self /\
  tau_latencies self' = tau_latencies self /\
  late_additional_latency self' = late_additional_latency self.
Proof.
  revert self. induction inputs as [|[er lr] inputs IH];
    intros self outs self' Hok Hrun; simpl in Hrun.
  - by injection Hrun as <- <-.
  - destruct (get_dynamic_rates self er lr) as [[y self1]|] eqn:Hstep; [|done].
    simpl in Hrun.
    destruct (run self1 inputs) as [[ys self2]|] eqn:Hrest; [|done].
    simpl in Hrun. injection Hrun as <- <-.
    destruct (get_dynamic_rates_buffer_ok _ _ _ _ _ Hok Hstep) as [Hok1 Hn1].
    destruct (get_dynamic_rates_frame _ _ _ _ _ Hok Hstep)
      as (_ & _ & _ & Hdt & Hmin & Hmax & Htau & Hadd).
    destruct (IH _ _ _ Hok1 Hrest) as (Hok2 & Hn2 & Hl2 & ? & ? & ? & ? & ?).
    split; [done|].
    destruct Hok as [Hlen _], Hok1 as [Hlen1 _].
    repeat split; congruence.
Qed.

Lemma latency_steps_ext (self self' : TamuraDynamics) (r : R) :
  dt self' = dt self -> min_latencies self' = min_latencies self ->
  max_latencies self' = max_latencies self ->
  tau_latencies self' = tau_latencies self ->
  latency_steps self' r = latency_steps self r.
Proof.
  intros Hdt Hmin Hmax Htau. unfold latency_steps, _get_latencies.
  by rewrite Hdt, Hmin, Hmax, Htau.
Qed.

(** A run on a well-shaped buffer whose steps all ask for non-negative
    delays raises nothing. *)
Lemma run_returns (self : TamuraDynamics) (inputs : list (R * R)) :
  buffer_ok self ->
  (0 <= late_additional_latency self)%Z ->
  (forall x, x ∈ inputs -> (0 <= latency_steps self x.1)%Z) ->
  is_Some (run self inputs).
Proof.
  revert self. induction inputs as [|[er lr] inputs IH];
    intros self Hok Hadd Hk; simpl.
  - by eexists.
  - destruct (get_dynamic_rates_returns self er lr) as [[y self1] Hstep].
    + done.
    + apply (Hk (er, lr)). by left.
    + done.
    + rewrite Hstep. simpl.
      destruct (get_dynamic_rates_buffer_ok _ _ _ _ _ Hok Hstep) as [Hok1 _].
      destruct (get_dynamic_rates_frame _ _ _ _ _ Hok Hstep)
        as (_ & _ & _ & Hdt & Hmin & Hmax & Htau & Hadd1).
      destruct (IH self1) as [[ys self2] Hrest].
      * done.
      * by rewrite Hadd1.
      * intros x Hx. rewrite (latency_steps_ext self) by done.
        apply Hk. by right.
      * rewrite Hrest. by eexists.
Qed.

(** C3: after [N < buffer_length] steps have written their rates, each
    advancing the cursor, the step that follows writes its own rates
    and a read with delay [k <= N] then yields, from either history
    sequence, the rate written [k] steps before that step: the step's
    own rate for [k = 0], the rate of the first of the [N] steps for
    [k = N]. *)
Theorem history_round_trip
    (self self' : TamuraDynamics) (inputs : list (R * R)) (outs : list R)
    (early_rates late_rates : R) (k : nat) :
  buffer_ok self ->
  run self inputs = Some (outs, self') ->
  (length inputs < length (early_memory self))%nat ->
  (k <= length inputs)%nat ->
  exists self1,
    written self' early_rates late_rates = Some self1 /\
    get (early_memory self1) (_get_index self1 (Z.of_nat k)) =
      (inputs ++ [(early_rates, late_rates)]).*1 !! (length inputs - k)%nat /\
    get (late_memory self1) (_get_index self1 (Z.of_nat k)) =
      (inputs ++ [(early_rates, late_rates)]).*2 !! (length inputs - k)%nat.
Proof.
  intros Hok Hrun HN Hk.
  set (all := inputs ++ [(early_rates, late_rates)]).
  destruct (run_history self inputs _ _ Hok Hrun ltac:(lia))
    as (Hok' & Hn' & Hc' & Hmem).
  eexists. split; [by apply written_Some|]. simpl.
  set (n := shape1 (early_memory self)) in *.
  set (c := memory_index self) in *.
  set (N := length inputs) in *.
  assert (0 <= c < n)%Z as Hc by apply Hok.
  assert (Z.of_nat N < n)%Z as HNn by (unfold n, shape1; lia).
  set (em := <[Z.to_nat (memory_index self') := early_rates]> (early_memory self')).
  set (lm := <[Z.to_nat (memory_index self') := late_rates]> (late_memory self')).
  assert (shape1 em = n) as Hsh.
  { unfold shape1, em. rewrite length_insert. exact Hn'. }
  assert (shape1 lm = n) as Hshl.
  { unfold shape1, lm. rewrite length_insert.
    destruct Hok' as [Hll _]. unfold shape1 in Hll, Hn'. lia. }
  assert (_get_index (with_memory self' em lm) (Z.of_nat k)
          = ((c + Z.of_nat (N - k)) mod n)%Z) as ->.
  { unfold _get_index. simpl. rewrite Hsh, Hc'.
    rewrite !wrap_add by lia.
    repeat match goal with
           | |- context [(?a <? ?b)%Z] => destruct (Z.ltb_spec a b)
           end; lia. }
  assert (0 <= (c + Z.of_nat (N - k)) mod n < n)%Z as Hidx
    by (apply Z.mod_pos_bound; lia).
  rewrite !get_in_range by (rewrite ?Hsh, ?Hshl; done).
  rewrite !list_lookup_fmap. unfold em, lm.
  assert (0 <= (c + Z.of_nat N) mod n < n)%Z as Hcur
    by (apply Z.mod_pos_bound; lia).
  assert (Z.of_nat (length (early_memory self')) = n) as Hle by exact Hn'.
  assert (Z.of_nat (length (late_memory self')) = n) as Hll
    by (destruct Hok' as [Hll _]; unfold shape1 in Hll; lia).
  destruct (decide (k = 0)%nat) as [-> | Hk0].
  - rewrite Nat.sub_0_r. unfold all. fold N.
    rewrite lookup_app_r, Nat.sub_diag by (fold N; lia). simpl.
    rewrite Hc'. fold N.
    rewrite !list_lookup_insert_eq; [done | lia | lia].
  - destruct (lookup_lt_is_Some_2 inputs (N - k)) as [x Hx];
      [fold N; lia|].
    unfold all. rewrite lookup_app_l by (fold N; lia). rewrite Hx. simpl.
    destruct (Hmem _ _ Hx) as [He Hl].
    rewrite !list_lookup_insert_ne; [by rewrite He, Hl | |].
    all: rewrite Hc'; fold N; rewrite !wrap_add by lia;
      repeat match goal with
             | |- context [(?a <? ?b)%Z] => destruct (Z.ltb_spec a b)
             end; lia.
Qed.

Lemma engine30_run_returns (inputs : list (R * R)) :
  is_Some (run Examples.engine30 inputs).
Proof.
  apply run_returns.
  - apply engine30_buffer_ok.
  - simpl. lia.
  - intros x _. rewrite engine30_latency_steps. lia.
Qed.

Lemma history_round_trip_witness :
  exists outs self' self1,
    run Examples.engine30 [(1, 2); (3, 4)] = Some (outs, self') /\
    written self' 5 6 = Some self1 /\
    get (early_memory self1) (_get_index self1 1) = Some 3 /\
    get (late_memory self1) (_get_index self1 1) = Some 4.
Proof.
  destruct (engine30_run_returns [(1, 2); (3, 4)]) as [[outs self'] Hrun].
  destruct (history_round_trip Examples.engine30 self' _ outs 5 6 1
              engine30_buffer_ok Hrun)
    as (self1 & Hw & He & Hl).
  - simpl. lia.
  - simpl. lia.
  - exists outs, self', self1. split; [exact Hrun|]. split; [exact Hw|].
    split; [exact He | exact Hl].
Defined.

(** *** Saturation of the delay *)

(** A read whose delay is at least the buffer length lands on the
    cursor, the slot the same step has just written. *)
Lemma saturated_read_is_current (self : TamuraDynamics) (er lr : R) (k : Z) :
  buffer_ok self ->
  (shape1 (early_memory self) <= k)%Z ->
  exists self1,
    written self er lr = Some self1 /\
    _get_index self1 k = memory_index self /\
    get (early_memory self1) (_get_index self1 k) = Some er /\
    get (late_memory self1) (_get_index self1 k) = Some lr.
Proof.
  intros Hok Hk. eexists. split; [by apply written_Some|].
  destruct Hok as [Hlen Hc]. unfold shape1 in *.
  assert (_get_index
            (with_memory self
               (<[Z.to_nat (memory_index self) := er]> (early_memory self))
               (<[Z.to_nat (memory_index self) := lr]> (late_memory self))) k
          = memory_index self) as ->.
  { unfold _get_index, shape1. simpl. rewrite length_insert.
    rewrite Z.min_r by lia.
    destruct (Z.ltb_spec (memory_index self
                          - Z.of_nat (length (early_memory self))) 0); lia. }
  split; [done|]. simpl.
  rewrite !get_in_range by (unfold shape1; rewrite length_insert; lia).
  rewrite !list_lookup_insert_eq by lia. done.
Qed.

(** *** Construction *)

Lemma init_inv (dt0 max_latency : R) (obj_dict : gmap string R)
    (w : Draws) (self : TamuraDynamics) :
  init dt0 obj_dict max_latency w = Some self ->
  dt0 <> 0 /\
  zeros (allocated_steps dt0 max_latency) = Some (early_memory self) /\
  late_memory self = early_memory self /\
  memory_index self = 0%Z /\
  late_additional_latency self = 10%Z /\
  dt self = dt0 /\
  min_latencies self = 9 / 100 + 1 / 100 * rand_min w /\
  max_latencies self =
    Rmin max_latency (9 / 100 + 1 / 100 * rand_min w + gamma_max w) /\
  tau_latencies self = gamma_tau w /\
  early_x self = (0, 0) /\ late_x self = 0.
Proof.
  unfold init, allocated_steps. destruct (Req_dec_T dt0 0) as [|Hdt]; [done|].
  destruct (zeros _) as [mem|]; [|done]. simpl.
  intros [= <-]. simpl. done.
Qed.

(** The float passed to [np.zeros] lies between the integers that
    enclose the computed quotient, shifted by 11: the two additions
    round, and integers of this size are binary64 numbers. *)
Lemma allocated_steps_lower (dt0 max_latency : R) (z : Z) :
  (0 <= z <= 2 ^ 50)%Z -> IZR z <= fdiv max_latency dt0 ->
  IZR (z + 11) <= allocated_steps dt0 max_latency.
Proof.
  intros Hz Hq. unfold allocated_steps, fadd.
  replace (z + 11)%Z with (z + 1 + 10)%Z by lia.
  apply float64_ge_IZR; [lia|]. rewrite plus_IZR.
  apply Rplus_le_compat_r, float64_ge_IZR; [lia|]. rewrite plus_IZR. lra.
Qed.

Lemma allocated_steps_upper (dt0 max_latency : R) (z : Z) :
  (0 <= z <= 2 ^ 50)%Z -> 0 <= fdiv max_latency dt0 <= IZR z ->
  allocated_steps dt0 max_latency <= IZR (z + 11).
Proof.
  intros Hz [H0 Hq]. unfold allocated_steps, fadd.
  assert (0 <= float64 (fdiv max_latency dt0 + 1) <= IZR (z + 1)) as [Ha0 Ha].
  { split; [apply float64_nonneg; lra|].
    apply float64_le_IZR; [lia|]. rewrite plus_IZR. lra. }
  replace (z + 11)%Z with (z + 1 + 10)%Z by lia.
  apply float64_le_IZR; [lia|]. rewrite (plus_IZR (z + 1)). lra.
Qed.

Lemma allocated_steps_ge_11 (dt0 max_latency : R) :
  0 <= fdiv max_latency dt0 -> 11 <= allocated_steps dt0 max_latency.
Proof.
  intros Hq. exact (allocated_steps_lower dt0 max_latency 0 ltac:(lia) Hq).
Qed.

Lemma allocated_steps_integer (dt0 max_latency : R) (z : Z) :
  (0 <= z <= 2 ^ 50)%Z -> fdiv max_latency dt0 = IZR z ->
  allocated_steps dt0 max_latency = IZR (z + 11).
Proof.
  intros Hz Hq.
  pose proof (allocated_steps_lower dt0 max_latency z Hz) as H1.
  pose proof (allocated_steps_upper dt0 max_latency z Hz) as H2.
  rewrite Hq in H1, H2.
  assert (0 <= IZR z) by (apply IZR_le; lia). lra.
Qed.

Lemma allocated_steps_quotient (dt0 max_latency : R) :
  0 <= fdiv max_latency dt0 ->
  fdiv max_latency dt0 <= 4 * allocated_steps dt0 max_latency.
Proof.
  intros Hq. unfold allocated_steps, fadd. set (q := fdiv _ _) in *.
  pose proof (float64_bounds (q + 1) ltac:(lra)) as [Ha _].
  set (a := float64 (q + 1)) in *.
  assert (0 <= a + 10) as Ha0 by lra.
  pose proof (float64_bounds (a + 10) Ha0) as [Hs _].
  lra.
Qed.

Lemma init_returns (dt0 max_latency : R) (obj_dict : gmap string R)
    (w : Draws) :
  0 < dt0 -> 0 <= max_latency -> max_latency / dt0 <= IZR (2 ^ 50) ->
  exists self,
    init dt0 obj_dict max_latency w = Some self /\
    early_memory self =
      replicate (Z.to_nat (floor (allocated_steps dt0 max_latency))) 0.
Proof.
  intros Hdt Hml Hb.
  pose proof (fdiv_nonneg max_latency dt0 Hml Hdt) as Hq0.
  assert (fdiv max_latency dt0 <= IZR (2 ^ 50)) as Hq.
  { apply float64_le_IZR; [lia|]. split; [|done].
    apply Rmult_le_pos; [done|]. left. by apply Rinv_0_lt_compat. }
  pose proof (allocated_steps_ge_11 dt0 max_latency Hq0) as Hlo.
  pose proof (allocated_steps_upper dt0 max_latency (2 ^ 50) ltac:(lia)
                (conj Hq0 Hq)) as Hhi.
  assert (zeros (allocated_steps dt0 max_latency)
          = Some (replicate
                    (Z.to_nat (floor (allocated_steps dt0 max_latency))) 0))
    as Hz.
  { apply zeros_nonneg; [lra|].
    apply floor_mono in Hhi. rewrite floor_IZR in Hhi. lia. }
  unfold init. destruct (Req_dec_T dt0 0) as [|_]; [lra|].
  unfold allocated_steps in Hz. rewrite Hz. simpl. by eexists.
Qed.

(** The constructor on a ceiling that is a whole number of time steps. *)
Lemma init_returns_integer (dt0 max_latency : R) (obj_dict : gmap string R)
    (w : Draws) (z : Z) :
  0 < dt0 -> (0 <= z <= 2 ^ 50)%Z -> max_latency / dt0 = IZR z ->
  exists self,
    init dt0 obj_dict max_latency w = Some self /\
    early_memory self = replicate (Z.to_nat (z + 11)) 0.
Proof.
  intros Hdt Hz Hq.
  assert (0 <= IZR z <= IZR (2 ^ 50)) as [Hz0 Hz1]
    by (split; apply IZR_le; lia).
  assert (max_latency = IZR z * dt0) as Hml by (rewrite <- Hq; field; lra).
  destruct (init_returns dt0 max_latency obj_dict w) as (self & Hinit & Hmem).
  - done.
  - rewrite Hml. apply Rmult_le_pos; lra.
  - by rewrite Hq.
  - exists self. split; [done|].
    rewrite Hmem, (allocated_steps_integer dt0 max_latency z), floor_IZR;
      [done | done |].
    apply fdiv_integer; [lia | done].
Qed.

Lemma init_buffer_ok (dt0 max_latency : R) (obj_dict : gmap string R)
    (w : Draws) (self : TamuraDynamics) :
  0 < dt0 -> 0 <= max_latency ->
  init dt0 obj_dict max_latency w = Some self ->
  buffer_ok self /\
  shape1 (early_memory self) = floor (allocated_steps dt0 max_latency) /\
  (11 <= shape1 (early_memory self) < 2 ^ 60)%Z.
Proof.
  intros Hdt Hml Hinit.
  destruct (init_inv _ _ _ _ _ Hinit) as (_ & Hz & Hl & Hi & _).
  destruct (zeros_Some _ _ Hz) as (Hn & _ & Hr).
  pose proof (fdiv_nonneg max_latency dt0 Hml Hdt) as Hq0.
  pose proof (allocated_steps_ge_11 dt0 max_latency Hq0) as Hlo.
  rewrite trunc_nonneg in Hn, Hr by lra.
  pose proof (floor_le _ 11 Hlo) as Hf.
  unfold buffer_ok. rewrite Hl, Hi, Hn. lia.
Qed.

(** A constructor that returns has computed a quotient far below the
    range of the 64-bit integers. *)
Lemma init_quotient_bound (dt0 max_latency : R) (obj_dict : gmap string R)
    (w : Draws) (self : TamuraDynamics) :
  0 < dt0 -> 0 <= max_latency ->
  init dt0 obj_dict max_latency w = Some self ->
  0 <= fdiv max_latency dt0 <= IZR (2 ^ 62).
Proof.
  intros Hdt Hml Hinit.
  destruct (init_buffer_ok _ _ _ _ _ Hdt Hml Hinit) as (_ & Hn & _ & Hb).
  pose proof (fdiv_nonneg max_latency dt0 Hml Hdt) as Hq0.
  pose proof (allocated_steps_quotient dt0 max_latency Hq0) as Hq.
  pose proof (floor_bounds (allocated_steps dt0 max_latency)) as [_ Hs].
  rewrite <- Hn in Hs.
  assert (IZR (shape1 (early_memory self)) + 1 <= IZR (2 ^ 60)) as Hb'.
  { rewrite <- (plus_IZR _ 1). apply IZR_le. lia. }
  split; [done|].
  replace (2 ^ 62)%Z with (4 * 2 ^ 60)%Z by lia. rewrite mult_IZR. lra.
Qed.




(** The binary64 numbers of the examples are the roundings of the
    decimals they are written as. *)
Lemma float64_0_005 : float64 (5 / 1000) = Examples.dt_005.
Proof.
  rewrite (float64_eq _ (-8) 5764607523034235).
  - unfold Examples.dt_005. simpl. lra.
  - simpl. lra.
  - simpl. lra.
Qed.

Lemma float64_0_003 : float64 (3 / 1000) = Examples.dt_003.
Proof.
  rewrite (float64_eq _ (-9) 6917529027641082).
  - unfold Examples.dt_003. simpl. lra.
  - simpl. lra.
  - simpl. lra.
Qed.

Lemma float64_0_235 : float64 (235 / 1000) = Examples.ceiling_235.
Proof.
  rewrite (float64_eq _ (-3) 8466767299456532).
  - unfold Examples.ceiling_235. simpl. lra.
  - simpl. lra.
  - simpl. lra.
Qed.







Lemma draws0_ok : draws_ok Examples.draws0.
Proof. unfold draws_ok. simpl. lra. Qed.



(** *** The zero fixed point *)

(** A latency between 0 and a bound whose quotient by the time step is
    a 64-bit integer gives a delay that the cast leaves as it is. *)
Lemma latency_steps_in_range (self : TamuraDynamics) (r bound : R) (b : Z) :
  0 < dt self -> 0 <= _get_latencies self r <= bound ->
  fdiv bound (dt self) <= IZR b -> (b < 2 ^ 63)%Z ->
  latency_steps self r = rint (fdiv (_get_latencies self r) (dt self)) /\
  (0 <= latency_steps self r <= b)%Z.
Proof.
  intros Hdt [Hl0 Hl1] Hb Hb63. unfold latency_steps.
  pose proof (fdiv_nonneg _ _ Hl0 Hdt) as Hq0.
  pose proof (fdiv_mono _ _ _ (conj Hl0 Hl1) Hdt) as Hq1.
  pose proof (rint_ge _ 0 Hq0) as Hr0.
  assert (rint (fdiv (_get_latencies self r) (dt self)) <= b)%Z as Hr1
    by (apply rint_le_IZR; lra).
  rewrite astype_int_in_range by lia. lia.
Qed.

Lemma latency_steps_zero_rate (self : TamuraDynamics) :
  0 < dt self -> 0 <= max_latencies self ->
  fdiv (max_latencies self) (dt self) <= IZR (2 ^ 62) ->
  (0 <= latency_steps self 0)%Z.
Proof.
  intros Hdt Hmax Hb.
  assert (_get_latencies self 0 = max_latencies self) as Hlat.
  { unfold _get_latencies.
    replace (- 0 / tau_latencies self) with 0 by (unfold Rdiv; ring).
    rewrite exp_0. ring. }
  apply (latency_steps_in_range self 0 (max_latencies self) (2 ^ 62));
    [done | rewrite Hlat; lra | done | lia].
Qed.

(** A step with zero rates on an object at rest returns 0 and leaves
    the object at rest. *)
Lemma get_dynamic_rates_at_rest (self : TamuraDynamics) :
  at_rest self ->
  (0 <= latency_steps self 0)%Z ->
  (0 <= late_additional_latency self)%Z ->
  exists self',
    get_dynamic_rates self 0 0 = Some (0, self') /\ at_rest self'.
Proof.
  intros (Hok & Hem & Hlm & Hex & Hlx) Hk Hadd.
  destruct (get_dynamic_rates_returns self 0 0 Hok Hk Hadd)
    as [[y self'] Hstep].
  destruct (get_dynamic_rates_buffer_ok _ _ _ _ _ Hok Hstep) as [Hok' _].
  destruct (get_dynamic_rates_frame _ _ _ _ _ Hok Hstep)
    as (He & Hl & _).
  destruct (get_dynamic_rates_inv _ _ _ _ _ Hstep)
    as (self1 & eu & lu & Hw & Heu & Hlu & Hy & Hex' & Hlx').
  rewrite written_Some in Hw by done. injection Hw as <-. simpl in Heu, Hlu.
  assert (Forall (fun v => v = 0)
            (<[Z.to_nat (memory_index self) := 0]> (early_memory self)))
    as Hem' by (by apply Forall_insert).
  assert (Forall (fun v => v = 0)
            (<[Z.to_nat (memory_index self) := 0]> (late_memory self)))
    as Hlm' by (by apply Forall_insert).
  assert (eu = 0) as ->.
  { apply get_Some_lookup in Heu as [j Hj].
    exact (Forall_lookup_1 _ _ _ _ Hem' Hj). }
  assert (lu = 0) as ->.
  { apply get_Some_lookup in Hlu as [j Hj].
    exact (Forall_lookup_1 _ _ _ _ Hlm' Hj). }
  rewrite integrate_early_explicit, integrate_late_explicit in Hy.
  rewrite integrate_early_explicit in Hex'.
  rewrite integrate_late_explicit in Hlx'.
  rewrite Hex, Hlx in Hy. rewrite Hex in Hex'. rewrite Hlx in Hlx'.
  simpl in Hy, Hex', Hlx'.
  assert (y = 0) as ->.
  { rewrite Hy. rewrite Rmax_left; [ring|].
    right. ring. }
  exists self'. split; [done|].
  split; [done|]. split; [by rewrite He|]. split; [by rewrite Hl|].
  rewrite Hex', Hlx'. split; [f_equal|]; ring.
Qed.

Lemma run_at_rest (self : TamuraDynamics) (steps : nat) :
  at_rest self ->
  (0 <= latency_steps self 0)%Z ->
  (0 <= late_additional_latency self)%Z ->
  exists self',
    run self (replicate steps (0, 0)) = Some (replicate steps 0, self') /\
    at_rest self'.
Proof.
  revert self. induction steps as [|steps IH]; intros self Hrest Hk Hadd.
  - by exists self.
  - destruct (get_dynamic_rates_at_rest self Hrest Hk Hadd)
      as (self1 & Hstep & Hrest1).
    destruct (get_dynamic_rates_frame _ _ _ _ _ (proj1 Hrest) Hstep)
      as (_ & _ & _ & Hdt & Hmin & Hmax & Htau & Hadd1).
    destruct (IH self1 Hrest1) as (self' & Hrun & Hrest').
    + by rewrite (latency_steps_ext self).
    + by rewrite Hadd1.
    + exists self'. simpl. rewrite Hstep. simpl. rewrite Hrun. done.
Qed.

(** C10: a freshly constructed profile (positive time step,
    non-negative ceiling, draws within the support of their
    distributions) returns 0 from every one of any number of
    consecutive steps whose early and late rates are both 0. *)
Theorem zero_fixed_point (dt0 max_latency : R) (obj_dict : gmap string R)
    (w : Draws) (self : TamuraDynamics) (steps : nat) :
  0 < dt0 -> 0 <= max_latency -> draws_ok w ->
  init dt0 obj_dict max_latency w = Some self ->
  exists self',
    run self (replicate steps (0, 0)) = Some (replicate steps 0, self').
Proof.
  intros Hdt Hml (Hu & Hg & Ht) Hinit.
  destruct (init_buffer_ok _ _ _ _ _ Hdt Hml Hinit) as [Hok _].
  destruct (init_quotient_bound _ _ _ _ _ Hdt Hml Hinit) as [_ Hq].
  destruct (init_inv _ _ _ _ _ Hinit)
    as (_ & Hz & Hl & _ & Hadd & Hdt' & _ & Hmax & _ & Hex & Hlx).
  destruct (zeros_Some _ _ Hz) as (_ & Hmem & _).
  assert (0 <= max_latencies self <= max_latency) as Hmx.
  { rewrite Hmax. split; [apply Rmin_glb; lra | apply Rmin_l]. }
  destruct (run_at_rest self steps) as (self' & Hrun & _).
  - split; [done|]. rewrite Hl, Hmem.
    split; [|split]; [apply Forall_replicate; done ..|done].
  - apply latency_steps_zero_rate; [by rewrite Hdt' | lra |].
    rewrite Hdt'. pose proof (fdiv_mono _ _ _ Hmx Hdt). lra.
  - rewrite Hadd. lia.
  - by exists self'.
Qed.

Lemma zero_fixed_point_witness :
  exists self self',
    init (5 / 1000) ∅ (1 / 4) Examples.draws0 = Some self /\
    run self (replicate 200 (0, 0)) = Some (replicate 200 0, self').
Proof.
  destruct (init_returns_integer (5 / 1000) (1 / 4) ∅ Examples.draws0 50)
    as (self & Hinit & _); [lra | lia | lra |].
  destruct (zero_fixed_point (5 / 1000) (1 / 4) ∅ Examples.draws0 self 200)
    as [self' Hrun]; [lra | lra | apply draws0_ok | exact Hinit |].
  exists self, self'. split; [exact Hinit | exact Hrun].
Defined.

Lemma exp_minus_1_lt_half : exp (- 1) < 1 / 2.
Proof.
  replace (-1) with (- (1)) by lra. rewrite exp_Ropp.
  pose proof (exp_ineq1 1 ltac:(lra)) as H.
  assert (0 < exp 1) as Hpos by apply exp_pos.
  replace (1 / 2) with (/ 2) by lra.
  apply Rinv_lt_contravar; nra.
Qed.

(** C4 at a concrete call.  A profile constructed with [dt = 0.005] and
    a ceiling of 0.05 has 21 history slots; its first call, with rates
    40 and 20, asks the late history for a delay above 21.  The sample
    it gets is 20, the late rate this very call has written at the
    cursor (slot 0), and the late state moves to 2; the oldest slot,
    slot 1, the one the cursor overwrites next, holds 0. *)
Lemma saturated_late_read_is_current_rate :
  exists self self1 y self',
    init (5 / 1000) ∅ (5 / 100) Examples.draws0 = Some self /\
    shape1 (late_memory self) = 21%Z /\
    (21 < latency_steps self 40 + late_additional_latency self)%Z /\
    written self 40 20 = Some self1 /\
    get (late_memory self1)
        (_get_index self1 (latency_steps self1 40
                           + late_additional_latency self1)) = Some 20 /\
    late_memory self1 !! 1%nat = Some 0 /\
    get_dynamic_rates self 40 20 = Some (y, self') /\
    memory_index self' = 1%Z /\
    late_x self' = 2.
Proof.
  destruct (init_returns_integer (5 / 1000) (5 / 100) ∅ Examples.draws0 10)
    as (self & Hinit & Hmem); [lra | lia | lra |].
  destruct (init_buffer_ok (5 / 1000) (5 / 100) ∅ Examples.draws0 self)
    as (Hok & _ & _); [lra | lra | exact Hinit |].
  assert (shape1 (early_memory self) = 21%Z) as Hn.
  { rewrite Hmem. unfold shape1. by rewrite length_replicate. }
  destruct (init_inv _ _ _ _ _ Hinit)
    as (_ & _ & Hl & Hi & Hadd & Hdt & Hmin & Hmax & Htau & _ & Hlx).
  simpl in Hmin, Hmax, Htau. rewrite Rmin_left in Hmax by lra.
  assert (12 <= latency_steps self 40 <= 18)%Z as Hk.
  { assert (7 / 100 <= _get_latencies self 40 <= 9 / 100) as Hlat.
    { unfold _get_latencies. rewrite Hmin, Hmax, Htau.
      replace (- (40) / 40) with (-1) by lra.
      pose proof exp_minus_1_lt_half. pose proof (exp_pos (-1)). lra. }
    destruct (latency_steps_in_range self 40 (9 / 100) 18)
      as [Hks [_ Hk18]].
    - rewrite Hdt. lra.
    - lra.
    - rewrite Hdt. apply float64_le_IZR; [lia | lra].
    - lia.
    - split; [|done]. rewrite Hks, Hdt. apply rint_ge.
      apply float64_ge_IZR; [lia | lra]. }
  destruct (saturated_read_is_current self 40 20
              (latency_steps self 40 + late_additional_latency self) Hok)
    as (self1 & Hw & Hidx & _ & Hget); [lia|].
  destruct (get_dynamic_rates_returns self 40 20 Hok) as [[y self'] Hstep];
    [lia | lia |].
  destruct (get_dynamic_rates_frame _ _ _ _ _ Hok Hstep)
    as (_ & _ & Hi' & _).
  destruct (get_dynamic_rates_inv _ _ _ _ _ Hstep)
    as (s1 & eu & lu & Hw' & _ & Hlu & _ & _ & Hlx').
  rewrite Hw in Hw'. injection Hw' as <-.
  assert (latency_steps self1 40 + late_additional_latency self1
          = latency_steps self 40 + late_additional_latency self)%Z as Hsame.
  { rewrite written_Some in Hw by done. by injection Hw as <-. }
  rewrite Hsame in Hlu. rewrite Hget in Hlu. injection Hlu as <-.
  exists self, self1, y, self'.
  split; [exact Hinit|]. split; [by rewrite Hl|]. split; [lia|].
  split; [exact Hw|]. split; [by rewrite Hsame|]. split; [|split; [exact Hstep|]].
  - rewrite written_Some in Hw by done. injection Hw as <-. simpl.
    rewrite Hi, Hl, Hmem. done.
  - split.
    + rewrite Hi', Hi, Hn. done.
    + rewrite Hlx', integrate_late_explicit. simpl.
      revert Hinit. unfold init.
      destruct (Req_dec_T _ _); [done|]. destruct (zeros _); [|done].
      simpl. intros [= <-]. simpl. lra.
Qed.

End TamuraFacts.

(** ** Properties of the neuron aggregator *)
Module NeuronFacts.
Import Numpy ITNeuron.

(** Without dynamics, [firing_rate] is the static rate of a non-empty
    scene and 0 for the empty one, and leaves the neuron as it is. *)
Lemma firing_rate_static (self : Neuron) (scene : list ground_truth) :
  dynamics self = None ->
  firing_rate self scene =
  match scene with
  | [] => Some (0, self)
  | _ => rate ← _get_static_firing_rate self (objects self) scene;
         rate ← np_float rate; Some (rate, self)
  end.
Proof.
  intros Hd. unfold firing_rate, tamura_dynamics. rewrite Hd. simpl.
  by destruct scene.
Qed.

Lemma firing_rate_unchanged (self self' : Neuron)
    (scene : list ground_truth) (rate : R) :
  dynamics self = None ->
  firing_rate self scene = Some (rate, self') -> self' = self.
Proof.
  intros Hd. rewrite firing_rate_static by done.
  destruct scene as [|g scene]; [by intros [= _ <-]|].
  destruct (_get_static_firing_rate _ _ _) as [a|]; [|done]. simpl.
  destruct (np_float a); [|done]. simpl. by intros [= _ <-].
Qed.

Lemma firing_rates_unchanged (self : Neuron)
    (scenes : list (list ground_truth)) :
  forall rates self',
  dynamics self = None ->
  firing_rates self scenes = Some (rates, self') -> self' = self.
Proof.
  induction scenes as [|scene scenes IH]; intros rates self' Hd; simpl.
  - by intros [= _ <-].
  - destruct (firing_rate self scene) as [[r self1]|] eqn:Hr; [|done]. simpl.
    apply firing_rate_unchanged in Hr as ->; [|done].
    destruct (firing_rates self scenes) as [[rs self2]|] eqn:Hrs; [|done].
    simpl. intros [= _ <-]. by apply (IH rs).
Qed.

(** The static rate of a one-object scene when every tolerance is
    complete. *)
Lemma static_rate_single (self : Neuron) (object_dict : gmap string R)
    (g : ground_truth) :
  position self = CompleteTolerance ->
  size self = CompleteTolerance ->
  occlusion self = CompleteTolerance ->
  _get_static_firing_rate self object_dict [g] =
  clutter self
    (Array [max_fire_rate self * default 0 (object_dict !! g.1.1.1.1.1.1.1.1)
            * 1 * 1 * 1])
    (Scalar 1).
Proof.
  intros Hp Hs Ho. unfold _get_static_firing_rate.
  rewrite Hp, Hs, Ho.
  destruct g as [[[[[[[[o x] y] s] rx] ry] rz] vn] vd]. done.
Qed.

(** C6: a neuron without dynamics whose preference table maps ["A"] to
    0.5, with [max_fire_rate = 100], every position, size and occlusion
    tolerance complete, and a clutter profile that returns a single
    isolated rate as it is, answers 50 to the one-object scene
    [[("A", x, y, size, 0, 0, 0, 1, 1)]] (100 * 0.5 * 1 * 1 * 1); an
    object missing from the table has selectivity 0 and the scene made
    of it alone gets rate 0. *)
Theorem firing_rate_single_object (self : Neuron) (x y sz : R) :
  dynamics self = None ->
  objects self !! "A" = Some (1 / 2) ->
  max_fire_rate self = 100 ->
  position self = CompleteTolerance ->
  size self = CompleteTolerance ->
  occlusion self = CompleteTolerance ->
  (forall r, clutter self (Array [r]) (Scalar 1) ≫= np_float = Some r) ->
  firing_rate self [("A", x, y, sz, 0, 0, 0, 1, 1)] = Some (50, self) /\
  (forall obj x y sz rx ry rz vn vd,
     objects self !! obj = None ->
     default 0 (objects self !! obj) = 0 /\
     firing_rate self [(obj, x, y, sz, rx, ry, rz, vn, vd)] = Some (0, self)).
Proof.
  intros Hd HA Hmax Hp Hs Ho Hcl. split.
  - rewrite firing_rate_static, static_rate_single by done. simpl.
    rewrite HA, Hmax. simpl.
    replace (100 * (1 / 2) * 1 * 1 * 1) with 50 by lra.
    pose proof (Hcl 50) as H.
    destruct (clutter self _ _) as [a|]; [|done]. simpl in *.
    by rewrite H.
  - intros obj x' y' sz' rx ry rz vn vd Hobj. rewrite Hobj. split; [done|].
    rewrite firing_rate_static, static_rate_single by done. simpl.
    rewrite Hobj. simpl.
    replace (max_fire_rate self * 0 * 1 * 1 * 1) with 0 by lra.
    pose proof (Hcl 0) as H.
    destruct (clutter self _ _) as [a|]; [|done]. simpl in *.
    by rewrite H.
Qed.

Lemma averaging_clutter_single (r : R) :
  averaging_clutter (Array [r]) (Scalar 1) ≫= np_float = Some r.
Proof.
  unfold averaging_clutter. simpl. f_equal. lra.
Qed.

Lemma firing_rate_single_object_witness :
  firing_rate NeuronExamples.neuron_A [("A", 3, 4, 2, 0, 0, 0, 1, 1)]
    = Some (50, NeuronExamples.neuron_A) /\
  firing_rate NeuronExamples.neuron_A [("B", 3, 4, 2, 0, 0, 0, 1, 1)]
    = Some (0, NeuronExamples.neuron_A).
Proof.
  destruct (firing_rate_single_object NeuronExamples.neuron_A 3 4 2)
    as [HA Hunknown].
  - reflexivity.
  - reflexivity.
  - reflexivity.
  - reflexivity.
  - reflexivity.
  - reflexivity.
  - exact averaging_clutter_single.
  - split; [exact HA|].
    apply (Hunknown "B"). reflexivity.
Defined.

(** C7: a neuron without dynamics answers 0 to the empty scene and is
    left as it was by every call, so it answers 0 to the empty scene
    after any calls made before, any number of times in a row. *)
Theorem firing_rate_empty_scene (self : Neuron) :
  dynamics self = None ->
  firing_rate self [] = Some (0, self) /\
  (forall n, firing_rates self (replicate n []) = Some (replicate n 0, self)) /\
  (forall scenes rates self',
     firing_rates self scenes = Some (rates, self') ->
     firing_rate self' [] = Some (0, self')) /\
  (forall scene, firing_rate self scene = None \/
                 exists rate, firing_rate self scene = Some (rate, self)).
Proof.
  intros Hd.
  assert (firing_rate self [] = Some (0, self)) as H0
    by by rewrite firing_rate_static.
  split; [done|]. split; [|split].
  - induction n as [|n IH]; [done|]. simpl. rewrite H0. simpl.
    rewrite IH. done.
  - intros scenes rates self' Hrun.
    by apply firing_rates_unchanged in Hrun as ->.
  - intros scene. destruct (firing_rate self scene) as [[r s]|] eqn:Hr.
    + right. exists r. by apply firing_rate_unchanged in Hr as ->.
    + by left.
Qed.

Lemma firing_rate_empty_scene_witness :
  firing_rates NeuronExamples.neuron_A [[]; []; []]
    = Some ([0; 0; 0], NeuronExamples.neuron_A) /\
  firing_rate NeuronExamples.neuron_A [] = Some (0, NeuronExamples.neuron_A).
Proof.
  destruct (firing_rate_empty_scene NeuronExamples.neuron_A) as (H0 & Hn & _).
  - reflexivity.
  - split; [exact (Hn 3%nat) | exact H0].
Defined.

End NeuronFacts.

(** ** Further properties of the dynamics profile *)
Module TamuraMore.
Import Numpy NumpyFacts Tamura TamuraFacts.

(** *** Early selectivities *)

(** X1: the early preference table has the keys of the late one and maps
    each to [min(2 * value, 1)]: no early selectivity exceeds 1, and a
    late selectivity within [[0, 1]] is doubled up to one half, is 1
    from one half on, and is never lowered. *)
Theorem early_selectivities_spec (late_obj_dict : gmap string R) :
  let early := get_early_object_selectivities late_obj_dict in
  dom early = dom late_obj_dict /\
  (forall key, early !! key = (fun value => Rmin (value * 2) 1) <$> late_obj_dict !! key) /\
  (forall key value', early !! key = Some value' -> value' <= 1) /\
  (forall key value,
     late_obj_dict !! key = Some value -> 0 <= value <= 1 ->
     exists value',
       early !! key = Some value' /\ value <= value' <= 1 /\
       (value <= 1 / 2 -> value' = 2 * value) /\
       (1 / 2 <= value -> value' = 1)).
Proof.
  intros early. unfold early, get_early_object_selectivities.
  split; [apply dom_fmap_L|]. split; [intros key; apply lookup_fmap|].
  split.
  - intros key value'. rewrite lookup_fmap.
    destruct (late_obj_dict !! key) as [value|]; [|done]. simpl.
    intros [= <-]. apply Rmin_r.
  - intros key value Hkey Hv. rewrite lookup_fmap, Hkey. simpl.
    eexists. split; [done|]. split; [|split].
    + split; [apply Rmin_glb; lra | apply Rmin_r].
    + intros Hhalf. rewrite Rmin_left; lra.
    + intros Hhalf. rewrite Rmin_right; lra.
Qed.

Lemma early_selectivities_spec_witness :
  get_early_object_selectivities {[ "car" := 2 / 5 ]} !! "car" = Some (4 / 5) /\
  get_early_object_selectivities {[ "car" := 2 / 5 ]} !! "bus" = None.
Proof.
  destruct (early_selectivities_spec {[ "car" := 2 / 5 ]})
    as (_ & Hlookup & _ & Hvalue).
  split.
  - destruct (Hvalue "car" (2 / 5)) as (v & Hv & _ & Hdouble & _).
    + reflexivity.
    + lra.
    + rewrite Hv. f_equal. rewrite Hdouble; lra.
  - rewrite Hlookup. reflexivity.
Defined.

(** *** Spikes *)

(** X2: [get_poisson_spikes] returns one event per rate; with draws in
    [[0, 1)], event [i] is a spike exactly when draw [i] is below
    [dt * rate], so a rate with [dt * rate <= 0] never spikes and a rate
    with [dt * rate >= 1] spikes at every call. *)
Theorem get_poisson_spikes_spec (dt : R) (rates : list R) (rand : nat -> R) :
  (forall i, 0 <= rand i < 1) ->
  length (get_poisson_spikes dt rates rand) = length rates /\
  forall i rate,
    rates !! i = Some rate ->
    get_poisson_spikes dt rates rand !! i
      = Some (bool_decide (rand i < dt * rate)) /\
    (dt * rate <= 0 -> get_poisson_spikes dt rates rand !! i = Some false) /\
    (1 <= dt * rate -> get_poisson_spikes dt rates rand !! i = Some true).
Proof.
  intros Hrand. unfold get_poisson_spikes. split; [apply length_imap|].
  intros i rate Hi. rewrite list_lookup_imap, Hi. simpl.
  split; [done|]. pose proof (Hrand i). split; intros H'; f_equal.
  - apply bool_decide_eq_false_2. lra.
  - apply bool_decide_eq_true_2. lra.
Qed.

Lemma get_poisson_spikes_spec_witness :
  get_poisson_spikes (1 / 1000) [0; 2000; 50] (fun _ => 1 / 2) !! 0%nat
    = Some false /\
  get_poisson_spikes (1 / 1000) [0; 2000; 50] (fun _ => 1 / 2) !! 1%nat
    = Some true.
Proof.
  destruct (get_poisson_spikes_spec (1 / 1000) [0; 2000; 50] (fun _ => 1 / 2))
    as [_ H]; [intros _; lra|].
  split.
  - apply (H 0%nat 0); [reflexivity | lra].
  - apply (H 1%nat 2000); [reflexivity | lra].
Defined.

(** *** The rank list *)

#[local] Instance by_value_descending_total : Total by_value_descending.
Proof.
  intros a b. unfold by_value_descending.
  destruct (Rle_or_lt (b.2) (a.2)); [by left | right; lra].
Qed.

#[local] Instance by_value_descending_trans : Transitive by_value_descending.
Proof. intros a b c. unfold by_value_descending. lra. Qed.

(** X3: the rank list holds exactly the items of the early preference
    table, each once, in an order in which no item is followed by one of
    a larger value; its first item has the largest value of the table. *)
Theorem get_ranked_object_list_spec (self : TamuraDynamics) :
  let ranked := get_ranked_object_list self in
  ranked ≡ₚ map_to_list (early_obj_pref self) /\
  length ranked = size (early_obj_pref self) /\
  (forall obj rate, (obj, rate) ∈ ranked <-> early_obj_pref self !! obj = Some rate) /\
  StronglySorted by_value_descending ranked /\
  (forall i j a b, ranked !! i = Some a -> ranked !! j = Some b ->
     (i <= j)%nat -> b.2 <= a.2) /\
  (forall top obj rate,
     ranked !! 0%nat = Some top ->
     early_obj_pref self !! obj = Some rate -> rate <= top.2).
Proof.
  intros ranked.
  assert (ranked ≡ₚ map_to_list (early_obj_pref self)) as Hperm
    by apply merge_sort_Permutation.
  assert (forall obj rate,
            (obj, rate) ∈ ranked <-> early_obj_pref self !! obj = Some rate)
    as Hin.
  { intros obj rate. rewrite Hperm. apply elem_of_map_to_list. }
  assert (StronglySorted by_value_descending ranked) as Hsorted
    by (apply StronglySorted_merge_sort; apply _).
  assert (forall i j a b, ranked !! i = Some a -> ranked !! j = Some b ->
            (i <= j)%nat -> b.2 <= a.2) as Hord.
  { clear Hperm Hin. induction Hsorted as [|x l Hl IH Hx];
      intros i j a b Hi Hj Hij; [done|].
    destruct i as [|i], j as [|j]; simpl in *.
    - injection Hi as <-. injection Hj as <-. lra.
    - injection Hi as <-. exact (Forall_lookup_1 _ _ _ _ Hx Hj).
    - lia.
    - apply (IH i j); [done | done | lia]. }
  split; [done|]. split.
  { rewrite Hperm. unfold size, map_size. by rewrite length_map_to_list. }
  split; [done|]. split; [done|]. split; [done|].
  intros top obj rate Htop Hobj.
  apply Hin, list_elem_of_lookup_1 in Hobj as [j Hj].
  apply (Hord 0%nat j top (obj, rate) Htop Hj). lia.
Qed.

Lemma get_ranked_object_list_spec_witness :
  exists top,
    get_ranked_object_list Examples.engine_car_bus !! 0%nat = Some top /\
    1 <= top.2.
Proof.
  destruct (get_ranked_object_list_spec Examples.engine_car_bus)
    as (_ & Hlen & _ & _ & _ & Htop).
  destruct (lookup_lt_is_Some_2
              (get_ranked_object_list Examples.engine_car_bus) 0)
    as [top Hlookup].
  { rewrite Hlen. vm_compute. lia. }
  exists top. split; [exact Hlookup|].
  pose proof (Htop top "bus" (Rmin (3 / 5 * 2) 1) Hlookup eq_refl) as H.
  rewrite Rmin_right in H by lra. exact H.
Defined.

(** *** Steps that raise nothing *)

Lemma run_length (self : TamuraDynamics) (inputs : list (R * R)) :
  forall outs self',
  run self inputs = Some (outs, self') -> length outs = length inputs.
Proof.
  revert self. induction inputs as [|[er lr] inputs IH];
    intros self outs self' Hrun; simpl in Hrun.
  - by injection Hrun as <- <-.
  - destruct (get_dynamic_rates self er lr) as [[y self1]|]; [|done].
    simpl in Hrun.
    destruct (run self1 inputs) as [[ys self2]|] eqn:Hrest; [|done].
    simpl in Hrun. injection Hrun as <- <-. simpl. f_equal. by eapply IH.
Qed.

(** The latency of a constructed profile on a non-negative rate, when
    the ceiling is at least 0.1: between the minimal latency and the
    ceiling. *)
Lemma init_latency_bounds (dt0 max_latency : R) (obj_dict : gmap string R)
    (w : Draws) (self : TamuraDynamics) (r : R) :
  1 / 10 <= max_latency -> draws_ok w ->
  init dt0 obj_dict max_latency w = Some self ->
  0 <= r ->
  9 / 100 <= _get_latencies self r <= max_latency.
Proof.
  intros Hml (Hu & Hg & Ht) Hinit Hr.
  destruct (init_inv _ _ _ _ _ Hinit)
    as (_ & _ & _ & _ & _ & _ & Hmin & Hmax & Htau & _).
  assert (min_latencies self <= max_latencies self) as Hmm.
  { rewrite Hmin, Hmax. apply Rmin_glb; lra. }
  assert (0 < tau_latencies self) as Htau' by by rewrite Htau.
  assert (max_latencies self <= max_latency) as Hceil
    by (rewrite Hmax; apply Rmin_l).
  unfold _get_latencies.
  pose proof (exp_neg_div_bounds r _ Htau' Hr) as He.
  set (e := exp _) in *. rewrite Hmin in *. nra.
Qed.

(** X4: a profile constructed with a positive time step, a latency
    ceiling of at least 0.1 (the default is 0.25) and draws within the
    support of their distributions raises nothing on early rates that
    are not negative, whatever the late rates and the number of steps,
    and returns one rate per step. *)
Theorem run_never_raises (dt0 max_latency : R) (obj_dict : gmap string R)
    (w : Draws) (self : TamuraDynamics) (inputs : list (R * R)) :
  0 < dt0 -> 1 / 10 <= max_latency -> draws_ok w ->
  init dt0 obj_dict max_latency w = Some self ->
  Forall (fun x => 0 <= x.1) inputs ->
  exists outs self',
    run self inputs = Some (outs, self') /\
    length outs = length inputs /\ buffer_ok self'.
Proof.
  intros Hdt Hml Hw Hinit Hall.
  assert (0 <= max_latency) as Hml0 by lra.
  destruct (init_buffer_ok _ _ _ _ _ Hdt Hml0 Hinit) as [Hok _].
  destruct (init_quotient_bound _ _ _ _ _ Hdt Hml0 Hinit) as [_ Hq].
  destruct (init_inv _ _ _ _ _ Hinit)
    as (_ & _ & _ & _ & Hadd & Hdt' & _).
  destruct (run_returns self inputs) as [[outs self'] Hrun].
  - done.
  - rewrite Hadd. lia.
  - intros x Hx. rewrite Forall_forall in Hall.
    pose proof (init_latency_bounds _ _ _ _ _ x.1 Hml Hw Hinit (Hall x Hx))
      as Hlat.
    apply (latency_steps_in_range self x.1 max_latency (2 ^ 62));
      [by rewrite Hdt' | lra | by rewrite Hdt' | lia].
  - exists outs, self'. split; [done|].
    split; [by apply (run_length self inputs outs self')|].
    by apply (run_invariant self inputs outs self').
Qed.

Lemma run_never_raises_witness :
  exists self outs self',
    init (5 / 1000) ∅ (1 / 4) Examples.draws0 = Some self /\
    run self [(50, 25); (3, -7); (0, 0)] = Some (outs, self') /\
    length outs = 3%nat.
Proof.
  destruct (init_returns_integer (5 / 1000) (1 / 4) ∅ Examples.draws0 50)
    as (self & Hinit & _); [lra | lia | lra |].
  destruct (run_never_raises (5 / 1000) (1 / 4) ∅ Examples.draws0 self
              [(50, 25); (3, -7); (0, 0)])
    as (outs & self' & Hrun & Hlen & _).
  - lra.
  - lra.
  - apply draws0_ok.
  - exact Hinit.
  - repeat constructor; simpl; lra.
  - exists self, outs, self'. split; [exact Hinit|].
    split; [exact Hrun | exact Hlen].
Defined.




(** *** The history after any number of steps *)

Lemma run_cursor (self : TamuraDynamics) (inputs : list (R * R)) :
  forall outs self',
  buffer_ok self ->
  run self inputs = Some (outs, self') ->
  memory_index self' =
    ((memory_index self + Z.of_nat (length inputs))
       mod shape1 (early_memory self))%Z.
Proof.
  induction inputs as [|[er lr] inputs IH] using rev_ind;
    intros outs self' Hok Hrun.
  - simpl in Hrun. injection Hrun as <- <-. simpl.
    rewrite Z.add_0_r, Z.mod_small; [done | apply Hok].
  - apply run_snoc in Hrun as (outs1 & self1 & y & Hrun & Hstep & ->).
    destruct (run_invariant _ _ _ _ Hok Hrun) as (Hok1 & Hn1 & _).
    destruct (get_dynamic_rates_frame _ _ _ _ _ Hok1 Hstep)
      as (_ & _ & Hi1 & _).
    assert (0 < shape1 (early_memory self))%Z by (destruct Hok; lia).
    rewrite Hi1, (IH _ _ Hok Hrun), Hn1.
    rewrite advance_mod by (apply Z.mod_pos_bound; lia).
    rewrite Z.add_mod_idemp_l by lia.
    rewrite length_app. simpl. f_equal. lia.
Qed.

(** X6: after any number [N] of steps the cursor is [N] slots further,
    modulo the buffer length, and the slot [k + 1] places behind it
    holds the rates of the step made [k] steps before the last one, for
    every [k] below both [N] and the buffer length: the history is the
    most recent [buffer_length] inputs, whatever it held before. *)
Theorem run_keeps_recent (self self' : TamuraDynamics)
    (inputs : list (R * R)) (outs : list R) :
  buffer_ok self ->
  run self inputs = Some (outs, self') ->
  let n := shape1 (early_memory self) in
  let N := length inputs in
  shape1 (early_memory self') = n /\
  shape1 (late_memory self') = n /\
  memory_index self' = ((memory_index self + Z.of_nat N) mod n)%Z /\
  forall (k : nat) (x : R * R),
    (k < N)%nat -> (Z.of_nat k < n)%Z ->
    inputs !! (N - 1 - k)%nat = Some x ->
    early_memory self' !! Z.to_nat ((memory_index self' - 1 - Z.of_nat k) mod n)
      = Some x.1 /\
    late_memory self' !! Z.to_nat ((memory_index self' - 1 - Z.of_nat k) mod n)
      = Some x.2.
Proof.
  intros Hok Hrun n N.
  destruct (run_invariant _ _ _ _ Hok Hrun) as (Hok' & Hn' & Hl' & _).
  assert (0 < n)%Z as Hn by (destruct Hok; unfold n; lia).
  split; [done|]. split; [destruct Hok as [Hl _]; unfold n; lia|].
  split; [by apply (run_cursor self inputs outs)|].
  intros k x HkN Hkn Hx.
  set (m := (N `min` Z.to_nat n)%nat).
  set (p := (N - m)%nat).
  assert (run self (take p inputs ++ drop p inputs) = Some (outs, self'))
    as Hsplit by (by rewrite take_drop).
  rewrite run_app in Hsplit.
  destruct (run self (take p inputs)) as [[outs1 self1]|] eqn:Hrun1; [|done].
  simpl in Hsplit.
  destruct (run self1 (drop p inputs)) as [[outs2 self2]|] eqn:Hrun2; [|done].
  simpl in Hsplit. injection Hsplit as _ <-.
  destruct (run_invariant _ _ _ _ Hok Hrun1) as (Hok1 & Hn1 & _).
  assert (length (drop p inputs) = m) as Hlen2.
  { rewrite length_drop. fold N. unfold p, m. lia. }
  destruct (run_history self1 (drop p inputs) outs2 self2 Hok1 Hrun2)
    as (_ & _ & Hc2 & Hmem).
  { rewrite Hlen2. unfold shape1 in Hn1. unfold m, n, shape1. lia. }
  rewrite Hlen2, Hn1 in Hc2. fold n in Hc2.
  assert (drop p inputs !! (m - 1 - k)%nat = Some x) as Hx2.
  { rewrite lookup_drop. rewrite <- Hx. f_equal. unfold p, m. lia. }
  destruct (Hmem _ _ Hx2) as [He Hl]. rewrite Hn1 in He, Hl. fold n in He, Hl.
  assert (((memory_index self2 - 1 - Z.of_nat k) mod n
           = (memory_index self1 + Z.of_nat (m - 1 - k)) mod n)%Z) as ->.
  { rewrite Hc2. rewrite <- Z.sub_add_distr.
    rewrite Zminus_mod_idemp_l. f_equal. unfold m. lia. }
  done.
Qed.

Lemma run_keeps_recent_witness :
  exists outs self',
    run Examples.engine30 [(1, 2); (3, 4); (5, 6)] = Some (outs, self') /\
    memory_index self' = 3%Z /\
    early_memory self' !! 1%nat = Some 3 /\
    late_memory self' !! 1%nat = Some 4.
Proof.
  destruct (engine30_run_returns [(1, 2); (3, 4); (5, 6)])
    as [[outs self'] Hrun].
  destruct (run_keeps_recent Examples.engine30 self' _ outs
              engine30_buffer_ok Hrun) as (_ & _ & Hc & Hmem).
  exists outs, self'. split; [exact Hrun|].
  assert (memory_index self' = 3%Z) as Hc3 by exact Hc.
  split; [exact Hc3|].
  destruct (Hmem 1%nat (3, 4)) as [He Hl].
  - simpl. lia.
  - unfold shape1. simpl. lia.
  - reflexivity.
  - rewrite Hc3 in He, Hl. split; [exact He | exact Hl].
Defined.

(** *** Constant drive and bounds *)

(** The time constants and the matrices are written by no method. *)
Lemma get_dynamic_rates_structure (self self' : TamuraDynamics) (er lr y : R) :
  get_dynamic_rates self er lr = Some (y, self') ->
  early_tau self' = early_tau self /\ late_tau self' = late_tau self /\
  early_A self' = early_A self /\ early_B self' = early_B self /\
  late_A self' = late_A self /\ late_B self' = late_B self /\
  early_C self' = early_C self /\ late_C self' = late_C self.
Proof.
  rewrite get_dynamic_rates_stages. unfold written.
  destruct (set (early_memory self) _ _); [|done].
  destruct (set (late_memory self) _ _); [|done]. simpl.
  destruct (_get_lagged_rates _ _) as [lagged|]; [|done]. simpl.
  unfold _step_dynamics.
  destruct (integrate _ _ _ _ _ _) as [ex ey].
  destruct (integrate _ _ _ _ _ _) as [lx ly].
  by intros [= <- <-].
Qed.

Lemma get_dynamic_rates_settled (self : TamuraDynamics) (e l : R) :
  settled self e l ->
  (0 <= latency_steps self e)%Z ->
  (0 <= late_additional_latency self)%Z ->
  exists self',
    get_dynamic_rates self e l = Some (l, self') /\ settled self' e l.
Proof.
  intros (Hok & Hst & Hem & Hlm & Hex & Hlx) Hk Hadd.
  destruct (get_dynamic_rates_returns self e l Hok Hk Hadd)
    as [[y self'] Hstep].
  destruct (get_dynamic_rates_buffer_ok _ _ _ _ _ Hok Hstep) as [Hok' _].
  destruct (get_dynamic_rates_frame _ _ _ _ _ Hok Hstep) as (He & Hl & _).
  destruct (get_dynamic_rates_structure _ _ _ _ _ Hstep)
    as (_ & _ & HA & HB & HlA & HlB & HC & HlC).
  destruct (get_dynamic_rates_inv _ _ _ _ _ Hstep)
    as (self1 & eu & lu & Hw & Heu & Hlu & Hy & Hex' & Hlx').
  rewrite written_Some in Hw by done. injection Hw as <-. simpl in Heu, Hlu.
  assert (Forall (fun v => v = e)
            (<[Z.to_nat (memory_index self) := e]> (early_memory self)))
    as Hem' by (by apply Forall_insert).
  assert (Forall (fun v => v = l)
            (<[Z.to_nat (memory_index self) := l]> (late_memory self)))
    as Hlm' by (by apply Forall_insert).
  assert (eu = e) as ->.
  { apply get_Some_lookup in Heu as [j Hj].
    exact (Forall_lookup_1 _ _ _ _ Hem' Hj). }
  assert (lu = l) as ->.
  { apply get_Some_lookup in Hlu as [j Hj].
    exact (Forall_lookup_1 _ _ _ _ Hlm' Hj). }
  destruct Hst as (HA0 & HB0 & HlA0 & HlB0 & HC0 & HlC0).
  rewrite integrate_early_explicit, integrate_late_explicit in Hy.
  rewrite integrate_early_explicit in Hex'.
  rewrite integrate_late_explicit in Hlx'.
  rewrite HA0, HB0, HlA0, HlB0, HC0, HlC0, Hex, Hlx in Hy.
  rewrite HA0, HB0, Hex in Hex'. rewrite HlA0, HlB0, Hlx in Hlx'.
  simpl in Hy, Hex', Hlx'.
  assert (y = l) as ->.
  { rewrite Hy. rewrite Rmax_left; [ring|]. right. ring. }
  exists self'. split; [done|]. split; [done|]. split.
  { unfold structural. by rewrite HA, HB, HlA, HlB, HC, HlC. }
  split; [by rewrite He|]. split; [by rewrite Hl|].
  rewrite Hex', Hlx'. split; [f_equal|]; ring.
Qed.

(** X7: an object settled on a constant drive [(e, l)] stays settled and
    returns the late rate [l] from every one of any number of further
    steps with that drive: at rest on its input the early (band-pass)
    output is 0 and the late (low-pass) output is its input. *)
Theorem settled_fixed_point (self : TamuraDynamics) (e l : R) (steps : nat) :
  settled self e l ->
  (0 <= latency_steps self e)%Z ->
  (0 <= late_additional_latency self)%Z ->
  exists self',
    run self (replicate steps (e, l)) = Some (replicate steps l, self') /\
    settled self' e l.
Proof.
  revert self. induction steps as [|steps IH]; intros self Hs Hk Hadd.
  - by exists self.
  - destruct (get_dynamic_rates_settled self e l Hs Hk Hadd)
      as (self1 & Hstep & Hs1).
    destruct (get_dynamic_rates_frame _ _ _ _ _ (proj1 Hs) Hstep)
      as (_ & _ & _ & Hdt & Hmin & Hmax & Htau & Hadd1).
    destruct (IH self1 Hs1) as (self' & Hrun & Hs').
    + by rewrite (latency_steps_ext self).
    + by rewrite Hadd1.
    + exists self'. simpl. rewrite Hstep. simpl. rewrite Hrun. done.
Qed.

Lemma settled_fixed_point_witness :
  exists self',
    run (Examples.engine (5 / 1000) (95 / 1000) (95 / 1000) 40
           (replicate 30 50) (replicate 30 25) 7 (50, 50) 25)
        (replicate 100 (50, 25))
    = Some (replicate 100 25, self').
Proof.
  set (self := Examples.engine (5 / 1000) (95 / 1000) (95 / 1000) 40
                 (replicate 30 50) (replicate 30 25) 7 (50, 50) 25).
  destruct (settled_fixed_point self 50 25 100) as (self' & Hrun & _).
  - split; [unfold buffer_ok, shape1; simpl; lia|].
    split; [unfold structural; simpl; repeat split; lra|].
    split; [by apply Forall_replicate|].
    split; [by apply Forall_replicate|]. done.
  - rewrite latency_steps_19 by done. lia.
  - simpl. lia.
  - exists self'. exact Hrun.
Defined.

(** X8: with the late matrices of [__init__] and a time step no longer
    than the late time constant, the late state never leaves an interval
    [[lo, hi]] that holds it, the late history and every late rate fed
    in, and no rate returned is below [lo]; with [lo = 0] the dynamic
    rates are never negative. *)
Theorem late_state_bounded (self : TamuraDynamics) (inputs : list (R * R))
    (lo hi : R) :
  forall outs self',
  buffer_ok self ->
  late_A self = -1 -> late_B self = 1 -> late_C self = 1 ->
  0 < dt self <= late_tau self ->
  lo <= late_x self <= hi ->
  Forall (fun v => lo <= v <= hi) (late_memory self) ->
  Forall (fun x => lo <= x.2 <= hi) inputs ->
  run self inputs = Some (outs, self') ->
  lo <= late_x self' <= hi /\
  Forall (fun v => lo <= v <= hi) (late_memory self') /\
  Forall (fun y => lo <= y) outs.
Proof.
  revert self. induction inputs as [|[er lr] inputs IH];
    intros self outs self' Hok HA HB HC Hdt Hx Hmem Hin Hrun; simpl in Hrun.
  - injection Hrun as <- <-. split; [done|]. split; [done|]. constructor.
  - destruct (get_dynamic_rates self er lr) as [[y self1]|] eqn:Hstep; [|done].
    simpl in Hrun.
    destruct (run self1 inputs) as [[ys self2]|] eqn:Hrest; [|done].
    simpl in Hrun. injection Hrun as <- <-.
    apply Forall_cons in Hin as [Hlr Hin]. simpl in Hlr.
    destruct (get_dynamic_rates_buffer_ok _ _ _ _ _ Hok Hstep) as [Hok1 _].
    destruct (get_dynamic_rates_frame _ _ _ _ _ Hok Hstep)
      as (_ & Hl & _ & Hdt1 & _).
    destruct (get_dynamic_rates_structure _ _ _ _ _ Hstep)
      as (_ & Htau1 & _ & _ & HA1 & HB1 & _ & HC1).
    destruct (get_dynamic_rates_inv _ _ _ _ _ Hstep)
      as (s1 & eu & lu & Hw & _ & Hlu & Hy & _ & Hlx1).
    rewrite written_Some in Hw by done. injection Hw as <-. simpl in Hlu.
    assert (Forall (fun v => lo <= v <= hi)
              (<[Z.to_nat (memory_index self) := lr]> (late_memory self)))
      as Hmem1 by (by apply Forall_insert).
    assert (lo <= lu <= hi) as Hlu'.
    { apply get_Some_lookup in Hlu as [j Hj].
      exact (Forall_lookup_1 _ _ _ _ Hmem1 Hj). }
    rewrite integrate_late_explicit in Hy, Hlx1.
    rewrite HA, HB, HC in Hy. rewrite HA, HB in Hlx1. simpl in Hy, Hlx1.
    set (a := dt self / late_tau self).
    assert (0 < a <= 1) as Ha.
    { unfold a. assert (0 < late_tau self) by lra.
      assert (0 < / late_tau self) by by apply Rinv_0_lt_compat.
      split; [apply Rmult_lt_0_compat; lra|].
      apply (Rmult_le_reg_r (late_tau self)); [done|].
      unfold Rdiv. rewrite Rmult_assoc, Rinv_l by lra. lra. }
    assert (late_x self1 = late_x self + a * (lu - late_x self)) as Hx1.
    { rewrite Hlx1. unfold a, Rdiv. ring. }
    assert (lo <= late_x self1 <= hi) as Hb1 by (rewrite Hx1; nra).
    assert (lo <= y) as Hylo.
    { rewrite Hy. set (ey := Rmax 0 _).
      assert (0 <= ey) by apply Rmax_l.
      rewrite Hlx1 in Hb1. lra. }
    destruct (IH self1 ys self2) as (Hx2 & Hmem2 & Hys); try done.
    + by rewrite HA1.
    + by rewrite HB1.
    + by rewrite HC1.
    + by rewrite Hdt1, Htau1.
    + by rewrite Hl.
    + split; [done|]. split; [done|]. by apply Forall_cons.
Qed.

Lemma late_state_bounded_witness :
  exists outs self',
    run Examples.engine30 [(50, 25); (50, 25); (0, 0)] = Some (outs, self') /\
    0 <= late_x self' <= 25 /\
    Forall (fun y => 0 <= y) outs.
Proof.
  destruct (engine30_run_returns [(50, 25); (50, 25); (0, 0)])
    as [[outs self'] Hrun].
  destruct (late_state_bounded Examples.engine30
              [(50, 25); (50, 25); (0, 0)] 0 25 outs self')
    as (Hx & _ & Hys).
  - apply engine30_buffer_ok.
  - reflexivity.
  - reflexivity.
  - reflexivity.
  - simpl. lra.
  - simpl. lra.
  - apply Forall_replicate. lra.
  - repeat (apply Forall_cons; split; [simpl; lra|]). constructor.
  - exact Hrun.
  - exists outs, self'. split; [exact Hrun|]. split; [exact Hx | exact Hys].
Defined.

End TamuraMore.

(** ** Further properties of the neuron aggregator *)
Module NeuronMore.
Import Numpy ITNeuron NeuronFacts.

(** *** Construction *)

(** [Neuron.__init__] raises nothing when every name is valid. *)
Lemma neuron_init_returns (ext : Collaborators) (draws : Tamura.Draws)
    (object_list : list string) (sim_time_step_s : R)
    (selectivity_profile : string) (max_fire_rate : R)
    (position_profile dynamic_profile size_profile occlusion_profile
       : option string)
    (clutter_profile : string) :
  let selectivity :=
    if bool_decide (lower selectivity_profile = "power_law")
    then PowerLawSparseness ext object_list
    else KurtosisSparseness ext object_list in
  (lower selectivity_profile = "power_law" \/
   lower selectivity_profile = "kurtosis") /\
  (forall name, dynamic_profile = Some name ->
     lower name = "tamura" /\
     is_Some (Tamura.init sim_time_step_s (Selectivity.objects selectivity)
                (1 / 4) draws)) /\
  (forall name, position_profile = Some name -> lower name = "gaussian") /\
  (forall name, size_profile = Some name ->
     lower name = "lognormal" /\ is_Some position_profile) /\
  (forall name, occlusion_profile = Some name ->
     lower name = "twoinputsigmoid") /\
  lower clutter_profile = "average" ->
  is_Some (init ext draws object_list sim_time_step_s selectivity_profile
             max_fire_rate position_profile dynamic_profile size_profile
             occlusion_profile clutter_profile).
Proof.
  intros selectivity. unfold selectivity, init.
  intros (Hsel & Hdyn & Hpos & Hsize & Hocc & Hclut).
  assert (exists sel,
            (if bool_decide (lower selectivity_profile = "power_law")
             then Some (PowerLawSparseness ext object_list)
             else if bool_decide (lower selectivity_profile = "kurtosis")
             then Some (KurtosisSparseness ext object_list)
             else None) = Some sel /\
            sel = (if bool_decide (lower selectivity_profile = "power_law")
                   then PowerLawSparseness ext object_list
                   else KurtosisSparseness ext object_list))
    as (sel & -> & Hsel').
  { destruct (decide (lower selectivity_profile = "power_law")) as [H1 | H1].
    - rewrite !bool_decide_eq_true_2 by done. by eexists.
    - destruct Hsel as [? | H2]; [done|].
      rewrite !(bool_decide_eq_false_2 _ H1).
      rewrite bool_decide_eq_true_2 by done. by eexists. }
  simpl. rewrite <- Hsel' in Hdyn. clear Hsel'.
  assert (is_Some position_profile \/ size_profile = None) as Hps.
  { destruct size_profile as [sn|]; [left; by apply (Hsize sn) | by right]. }
  assert (exists dyn,
            match dynamic_profile with
            | Some name =>
              if bool_decide (lower name = "tamura")
              then Tamura.init sim_time_step_s (Selectivity.objects sel)
                     (1 / 4) draws ≫= (fun d => Some (Some d))
              else None
            | None => Some None
            end = Some dyn) as [dyn ->].
  { destruct dynamic_profile as [dn|]; [|by eexists].
    destruct (Hdyn dn eq_refl) as [Hn [d Hd]].
    rewrite bool_decide_eq_true_2 by done. rewrite Hd. by eexists. }
  simpl.
  destruct position_profile as [pn|]; simpl.
  + rewrite (bool_decide_eq_true_2 (lower pn = "gaussian"))
      by (by apply Hpos).
    simpl.
    destruct size_profile as [sn|]; simpl;
      [rewrite (bool_decide_eq_true_2 (lower sn = "lognormal"))
         by (by apply (Hsize sn)); simpl|];
      (destruct occlusion_profile as [on|]; simpl;
       [rewrite (bool_decide_eq_true_2 (lower on = "twoinputsigmoid"))
          by (by apply Hocc); simpl|]);
      rewrite (bool_decide_eq_true_2 (lower clutter_profile = "average"))
        by done;
      by eexists.
  + destruct Hps as [[? ?] | ->]; [done|]. simpl.
    destruct occlusion_profile as [on|]; simpl;
      [rewrite (bool_decide_eq_true_2 (lower on = "twoinputsigmoid"))
         by (by apply Hocc); simpl|];
      rewrite (bool_decide_eq_true_2 (lower clutter_profile = "average"))
        by done;
      by eexists.
Qed.

(** X9: [Neuron.__init__] returns a neuron exactly when the selectivity
    profile is ['power_law'] or ['kurtosis'], each optional profile is
    absent or names its one implementation (['tamura'], ['gaussian'],
    ['lognormal'], ['twoinputsigmoid']), the clutter profile is
    ['average'], all compared in lower case, a log-normal size profile
    comes with a Gaussian position profile, and the dynamics profile, if
    asked for, can be constructed; otherwise it raises. *)
Theorem init_succeeds_iff (ext : Collaborators) (draws : Tamura.Draws)
    (object_list : list string) (sim_time_step_s : R)
    (selectivity_profile : string) (max_fire_rate : R)
    (position_profile dynamic_profile size_profile occlusion_profile
       : option string)
    (clutter_profile : string) :
  let selectivity :=
    if bool_decide (lower selectivity_profile = "power_law")
    then PowerLawSparseness ext object_list
    else KurtosisSparseness ext object_list in
  is_Some (init ext draws object_list sim_time_step_s selectivity_profile
             max_fire_rate position_profile dynamic_profile size_profile
             occlusion_profile clutter_profile) <->
  (lower selectivity_profile = "power_law" \/
   lower selectivity_profile = "kurtosis") /\
  (forall name, dynamic_profile = Some name ->
     lower name = "tamura" /\
     is_Some (Tamura.init sim_time_step_s (Selectivity.objects selectivity)
                (1 / 4) draws)) /\
  (forall name, position_profile = Some name -> lower name = "gaussian") /\
  (forall name, size_profile = Some name ->
     lower name = "lognormal" /\ is_Some position_profile) /\
  (forall name, occlusion_profile = Some name ->
     lower name = "twoinputsigmoid") /\
  lower clutter_profile = "average".
Proof.
  intros selectivity. unfold selectivity, init. split.
  - intros [self Hinit].
    apply bind_Some in Hinit as (sel & Hsel & Hinit).
    apply bind_Some in Hinit as (dyn & Hdyn & Hinit).
    apply bind_Some in Hinit as (pos & Hpos & Hinit).
    apply bind_Some in Hinit as (sz & Hsize & Hinit).
    apply bind_Some in Hinit as (occ & Hocc & Hinit).
    apply bind_Some in Hinit as (clut & Hclut & _).
    assert ((lower selectivity_profile = "power_law" \/
             lower selectivity_profile = "kurtosis") /\
            sel = (if bool_decide (lower selectivity_profile = "power_law")
                   then PowerLawSparseness ext object_list
                   else KurtosisSparseness ext object_list))
      as [Hnames <-].
    { revert Hsel. repeat case_bool_decide; intros [= <-]; auto. }
    split; [done|].
    assert (lower clutter_profile = "average") as Hc.
    { destruct (decide (lower clutter_profile = "average")) as [|Hn]; [done|].
      by rewrite bool_decide_eq_false_2 in Hclut. }
    clear Hsel Hclut.
    split; [|split; [|split; [|split]]]; [| | | |done].
    + intros name ->.
      destruct (decide (lower name = "tamura")) as [Hn | Hn].
      * split; [done|]. rewrite bool_decide_eq_true_2 in Hdyn by done.
        destruct (Tamura.init _ _ _ _) as [d|]; [by eexists | done].
      * by rewrite bool_decide_eq_false_2 in Hdyn.
    + intros name ->.
      destruct (decide (lower name = "gaussian")) as [Hn | Hn]; [done|].
      by rewrite bool_decide_eq_false_2 in Hpos.
    + intros name ->.
      destruct (decide (lower name = "lognormal")) as [Hn | Hn].
      * split; [done|]. rewrite bool_decide_eq_true_2 in Hsize by done.
        destruct pos as [g|]; [|done].
        destruct position_profile; [by eexists | done].
      * by rewrite bool_decide_eq_false_2 in Hsize.
    + intros name ->.
      destruct (decide (lower name = "twoinputsigmoid")) as [Hn | Hn]; [done|].
      by rewrite bool_decide_eq_false_2 in Hocc.
  - apply neuron_init_returns.
Qed.

Lemma plain_tamura_init (objs : gmap string R) :
  is_Some (Tamura.init (5 / 1000) objs (1 / 4) Examples.draws0).
Proof.
  destruct (TamuraFacts.init_returns_integer (5 / 1000) (1 / 4) objs
              Examples.draws0 50)
    as (d & Hd & _); [lra | lia | lra |]. by exists d.
Qed.

Lemma init_succeeds_iff_witness :
  is_Some (init NeuronExamples.plain_collaborators Examples.draws0
             ["A"] (5 / 1000) "Kurtosis" 100
             (Some "Gaussian") (Some "Tamura") (Some "Lognormal")
             (Some "TwoInputSigmoid") "average") /\
  ~ is_Some (init NeuronExamples.plain_collaborators Examples.draws0
               ["A"] (5 / 1000) "power_law" 100
               None None (Some "lognormal") None "average") /\
  ~ is_Some (init NeuronExamples.plain_collaborators Examples.draws0
               ["A"] (5 / 1000) "power_law" 100
               None (Some "tamura2") None None "average").
Proof.
  split; [|split].
  - apply (proj2 (init_succeeds_iff NeuronExamples.plain_collaborators
                    Examples.draws0 ["A"] (5 / 1000) "Kurtosis" 100
                    (Some "Gaussian") (Some "Tamura") (Some "Lognormal")
                    (Some "TwoInputSigmoid") "average")).
    split; [by right|]. split; [|split; [|split; [|split]]].
    + intros name [= <-]. split; [reflexivity | apply plain_tamura_init].
    + intros name [= <-]. reflexivity.
    + intros name [= <-]. split; [reflexivity | by eexists].
    + intros name [= <-]. reflexivity.
    + reflexivity.
  - intros Hsome.
    apply (proj1 (init_succeeds_iff NeuronExamples.plain_collaborators
                    Examples.draws0 ["A"] (5 / 1000) "power_law" 100
                    None None (Some "lognormal") None "average")) in Hsome
      as (_ & _ & _ & Hsize & _).
    destruct (Hsize "lognormal" eq_refl) as [_ [? ?]]. done.
  - intros Hsome.
    apply (proj1 (init_succeeds_iff NeuronExamples.plain_collaborators
                    Examples.draws0 ["A"] (5 / 1000) "power_law" 100
                    None (Some "tamura2") None None "average")) in Hsome
      as (_ & Hdyn & _).
    destruct (Hdyn "tamura2" eq_refl) as [Hname _]. done.
Defined.

(** *** The dynamics profile and [firing_rate] *)

Lemma tamura_init_type (dt0 max_latency : R) (obj_dict : gmap string R)
    (w : Tamura.Draws) (d : Tamura.TamuraDynamics) :
  Tamura.init dt0 obj_dict max_latency w = Some d ->
  Tamura.type d = "Tamura_dynamic_profile" /\
  Tamura.early_obj_pref d = Tamura.get_early_object_selectivities obj_dict.
Proof.
  unfold Tamura.init. destruct (Req_dec_T dt0 0); [done|].
  destruct (zeros _); [|done]. simpl. by intros [= <-].
Qed.

(** [firing_rate] when the test for a dynamics profile fails. *)
Lemma firing_rate_no_tamura (self : Neuron) (scene : list ground_truth) :
  tamura_dynamics self = None ->
  firing_rate self scene =
  match scene with
  | [] => Some (0, self)
  | _ => rate ← _get_static_firing_rate self (objects self) scene;
         rate ← np_float rate; Some (rate, self)
  end.
Proof.
  intros Hd. unfold firing_rate. rewrite Hd. by destruct scene.
Qed.

Lemma firing_rates_no_tamura (self : Neuron)
    (scenes : list (list ground_truth)) :
  forall rates self',
  tamura_dynamics self = None ->
  firing_rates self scenes = Some (rates, self') -> self' = self.
Proof.
  induction scenes as [|scene scenes IH]; intros rates self' Hd; simpl.
  - by intros [= _ <-].
  - rewrite firing_rate_no_tamura by done.
    assert (forall (r : option R),
              (r ≫= fun rate => Some (rate, self)) ≫=
              (fun '(rate, s) =>
                 firing_rates s scenes ≫=
                 fun '(rates, s) => Some (rate :: rates, s))
              = Some (rates, self') -> self' = self) as Hcase.
    { intros [r|]; [|done]. cbn.
      destruct (firing_rates self scenes) as [[rs s2]|] eqn:Hrs; [|done].
      cbn. intros [= _ <-]. by apply (IH rs). }
    destruct scene as [|g scene]; [exact (Hcase (Some 0))|].
    destruct (_get_static_firing_rate _ _ _) as [a|]; [|done]. cbn.
    exact (Hcase (np_float a)).
Qed.

Lemma static_rate_ext (self self0 : Neuron) (object_dict : gmap string R)
    (scene : list ground_truth) :
  max_fire_rate self0 = max_fire_rate self ->
  position self0 = position self -> size self0 = size self ->
  occlusion self0 = occlusion self -> clutter self0 = clutter self ->
  _get_static_firing_rate self0 object_dict scene
  = _get_static_firing_rate self object_dict scene.
Proof.
  intros Hm Hp Hs Ho Hc. unfold _get_static_firing_rate.
  by rewrite Hm, Hp, Hs, Ho, Hc.
Qed.

(** What a constructed neuron holds. *)
Lemma neuron_init_inv (ext : Collaborators) (draws : Tamura.Draws)
    (object_list : list string) (sim_time_step_s : R)
    (selectivity_profile : string) (rate : R)
    (position_profile dynamic_profile size_profile occlusion_profile
       : option string)
    (clutter_profile : string) (self : Neuron) :
  init ext draws object_list sim_time_step_s selectivity_profile rate
    position_profile dynamic_profile size_profile occlusion_profile
    clutter_profile = Some self ->
  let selectivity :=
    if bool_decide (lower selectivity_profile = "power_law")
    then PowerLawSparseness ext object_list
    else KurtosisSparseness ext object_list in
  let gaussian :=
    GaussianPositionProfile ext
      (Selectivity.activity_fraction_absolute selectivity) in
  objects self = Selectivity.objects selectivity /\
  max_fire_rate self =
    (if bool_decide (Selectivity.type selectivity = "kurtosis")
     then Selectivity.get_max_firing_rate selectivity else rate) /\
  match dynamic_profile with
  | None => dynamics self = None
  | Some _ =>
    exists d,
      Tamura.init sim_time_step_s (Selectivity.objects selectivity) (1 / 4)
        draws = Some d /\
      dynamics self = Some d
  end /\
  position self =
    match position_profile with
    | None => CompleteTolerance
    | Some _ => Tuned (GaussianPosition.firing_rate_modifier gaussian)
    end /\
  size self =
    match size_profile with
    | None => CompleteTolerance
    | Some _ =>
      Tuned (LogNormalSizeProfile ext
               (GaussianPosition.position_tolerance gaussian))
    end /\
  occlusion self =
    match occlusion_profile with
    | None => CompleteTolerance
    | Some _ => Tuned (TwoInputSigmoidOcclusionProfile ext)
    end /\
  clutter self = AveragingClutterProfile ext.
Proof.
  intros Hinit selectivity gaussian. unfold init in Hinit.
  apply bind_Some in Hinit as (sel & Hsel & Hinit).
  apply bind_Some in Hinit as (dyn & Hdyn & Hinit).
  apply bind_Some in Hinit as (pos & Hpos & Hinit).
  apply bind_Some in Hinit as (sz & Hsize & Hinit).
  apply bind_Some in Hinit as (occ & Hocc & Hinit).
  apply bind_Some in Hinit as (clut & Hclut & Hinit).
  injection Hinit as <-. simpl.
  assert (sel = selectivity) as ->.
  { unfold selectivity.
    destruct (decide (lower selectivity_profile = "power_law")) as [H1 | H1].
    - rewrite !bool_decide_eq_true_2 in * by done. by injection Hsel.
    - rewrite !(bool_decide_eq_false_2 _ H1) in *.
      destruct (decide (lower selectivity_profile = "kurtosis")) as [H2 | H2].
      + rewrite bool_decide_eq_true_2 in Hsel by done. by injection Hsel.
      + by rewrite bool_decide_eq_false_2 in Hsel. }
  assert (pos = match position_profile with
                | None => None | Some _ => Some gaussian end) as ->.
  { destruct position_profile as [pn|]; [|by injection Hpos].
    destruct (decide (lower pn = "gaussian")) as [Hn | Hn].
    - rewrite bool_decide_eq_true_2 in Hpos by done. by injection Hpos.
    - by rewrite bool_decide_eq_false_2 in Hpos. }
  split; [done|]. split; [done|]. split; [|split; [|split; [|split]]].
  - destruct dynamic_profile as [dn|]; [|by injection Hdyn].
    destruct (decide (lower dn = "tamura")) as [Hn | Hn].
    + rewrite bool_decide_eq_true_2 in Hdyn by done.
      destruct (Tamura.init _ _ _ _) as [d|]; [|done].
      injection Hdyn as <-. by exists d.
    + by rewrite bool_decide_eq_false_2 in Hdyn.
  - by destruct position_profile.
  - destruct size_profile as [sn|]; [|by injection Hsize].
    destruct (decide (lower sn = "lognormal")) as [Hn | Hn].
    + rewrite bool_decide_eq_true_2 in Hsize by done.
      destruct position_profile; [by injection Hsize | done].
    + by rewrite bool_decide_eq_false_2 in Hsize.
  - destruct occlusion_profile as [on|]; [|by injection Hocc].
    destruct (decide (lower on = "twoinputsigmoid")) as [Hn | Hn].
    + rewrite bool_decide_eq_true_2 in Hocc by done. by injection Hocc.
    + by rewrite bool_decide_eq_false_2 in Hocc.
  - destruct (decide (lower clutter_profile = "average")) as [Hn | Hn].
    + rewrite bool_decide_eq_true_2 in Hclut by done. by injection Hclut.
    + by rewrite bool_decide_eq_false_2 in Hclut.
Qed.

(** X10: a neuron constructed by [Neuron.__init__] never steps its
    dynamics profile.  The profile's [type] is
    ['Tamura_dynamic_profile'], [firing_rate] asks for ['tamura'], so
    every call takes the static path: 0 for the empty scene, the static
    rate otherwise, the neuron unchanged; and the rates are those of the
    neuron constructed with the same arguments and no dynamics
    profile. *)
Theorem firing_rate_ignores_dynamics (ext : Collaborators)
    (draws : Tamura.Draws) (object_list : list string) (sim_time_step_s : R)
    (selectivity_profile : string) (rate : R)
    (position_profile dynamic_profile size_profile occlusion_profile
       : option string)
    (clutter_profile : string) (self : Neuron) :
  init ext draws object_list sim_time_step_s selectivity_profile rate
    position_profile dynamic_profile size_profile occlusion_profile
    clutter_profile = Some self ->
  (forall d, dynamics self = Some d ->
     Tamura.type d = "Tamura_dynamic_profile") /\
  (forall scene,
     firing_rate self scene =
     match scene with
     | [] => Some (0, self)
     | _ => r ← _get_static_firing_rate self (objects self) scene;
            r ← np_float r; Some (r, self)
     end) /\
  (forall scenes rates self',
     firing_rates self scenes = Some (rates, self') -> self' = self) /\
  (forall self0,
     init ext draws object_list sim_time_step_s selectivity_profile rate
       position_profile None size_profile occlusion_profile
       clutter_profile = Some self0 ->
     forall scene,
       fst <$> firing_rate self scene = fst <$> firing_rate self0 scene).
Proof.
  intros Hinit.
  destruct (neuron_init_inv _ _ _ _ _ _ _ _ _ _ _ _ Hinit)
    as (Hobj & Hmax & Hdyn & Hpos & Hsize & Hocc & Hclut).
  assert (forall d, dynamics self = Some d ->
            Tamura.type d = "Tamura_dynamic_profile") as Htype.
  { intros d Hd. destruct dynamic_profile as [dn|]; [|congruence].
    destruct Hdyn as (d' & Hd' & Hself). rewrite Hself in Hd.
    injection Hd as <-. by apply tamura_init_type in Hd' as [? _]. }
  assert (tamura_dynamics self = None) as Hnone.
  { unfold tamura_dynamics. destruct (dynamics self) as [d|] eqn:Hd; [|done].
    simpl. rewrite (Htype d eq_refl). done. }
  split; [done|]. split; [intros; by apply firing_rate_no_tamura|].
  split; [intros scenes rates self'; by apply firing_rates_no_tamura|].
  intros self0 Hinit0 scene.
  destruct (neuron_init_inv _ _ _ _ _ _ _ _ _ _ _ _ Hinit0)
    as (Hobj0 & Hmax0 & Hdyn0 & Hpos0 & Hsize0 & Hocc0 & Hclut0).
  rewrite firing_rate_no_tamura by done.
  rewrite (firing_rate_static self0) by done.
  destruct scene as [|g scene]; [done|].
  rewrite (static_rate_ext self self0) by congruence.
  rewrite Hobj0, <- Hobj.
  destruct (_get_static_firing_rate self (objects self) (g :: scene))
    as [a|]; [|done].
  simpl. by destruct (np_float a).
Qed.

Lemma firing_rate_ignores_dynamics_witness :
  exists self,
    init NeuronExamples.plain_collaborators Examples.draws0
      ["A"] (5 / 1000) "power_law" 100 None (Some "tamura") None None
      "average" = Some self /\
    is_Some (dynamics self) /\
    firing_rate self [] = Some (0, self).
Proof.
  destruct (neuron_init_returns NeuronExamples.plain_collaborators
              Examples.draws0 ["A"] (5 / 1000) "power_law" 100
              None (Some "tamura") None None "average")
    as [self Hinit].
  { split; [by left|]. split; [|split; [|split; [|split]]]; try done.
    intros name [= <-]. split; [reflexivity | apply plain_tamura_init]. }
  exists self. split; [exact Hinit|].
  destruct (firing_rate_ignores_dynamics _ _ _ _ _ _ _ _ _ _ _ _ Hinit)
    as (_ & Hstatic & _).
  split; [|exact (Hstatic [])].
  destruct (neuron_init_inv _ _ _ _ _ _ _ _ _ _ _ _ Hinit)
    as (_ & _ & (d & _ & Hd) & _).
  rewrite Hd. by eexists.
Defined.

(** *** Static rates of scenes of any size *)

Lemma lookup_map {A B} (f : A -> B) (l : list A) (i : nat) :
  map f l !! i = f <$> l !! i.
Proof.
  revert i. induction l as [|a l IH]; intros [|i]; simpl; try done; apply IH.
Qed.

(** X11: when position, size and occlusion tolerance are all complete,
    the clutter profile receives one isolated rate per object of the
    scene, in scene order, each [max_fire_rate] times the object's entry
    in the preference table and 0 for an object the table does not
    have, together with the weight 1; called on an empty scene the
    method raises. *)
Theorem static_rate_complete_tolerance (self : Neuron)
    (object_dict : gmap string R) (scene : list ground_truth) :
  position self = CompleteTolerance ->
  size self = CompleteTolerance ->
  occlusion self = CompleteTolerance ->
  _get_static_firing_rate self object_dict [] = None /\
  (scene <> [] ->
   exists isolated_rates,
     _get_static_firing_rate self object_dict scene
       = clutter self (Array isolated_rates) (Scalar 1) /\
     length isolated_rates = length scene /\
     forall i g,
       scene !! i = Some g ->
       exists r,
         isolated_rates !! i = Some r /\
         r = max_fire_rate self * default 0 (object_dict !! g.1.1.1.1.1.1.1.1) /\
         (object_dict !! g.1.1.1.1.1.1.1.1 = None -> r = 0)).
Proof.
  intros Hp Hs Ho. split; [done|]. intros Hne.
  unfold _get_static_firing_rate. rewrite Hp, Hs, Ho.
  destruct scene as [|g0 scene]; [done|]. cbn -[map].
  eexists. split; [done|]. split.
  { by rewrite !length_map. }
  intros i g Hi. rewrite !lookup_map. unfold ground_truth in *.
  rewrite Hi. simpl.
  eexists. split; [done|].
  assert ((fun '(o, _, _, _, _, _, _, _, _) => o) g = g.1.1.1.1.1.1.1.1)
    as -> by (by destruct g as [[[[[[[[??]?]?]?]?]?]?]?]).
  split; [ring|]. intros ->. simpl. ring.
Qed.

Lemma static_rate_complete_tolerance_witness :
  _get_static_firing_rate NeuronExamples.neuron_A {[ "A" := 1 / 2 ]}
    [("A", 0, 0, 1, 0, 0, 0, 1, 1); ("B", 2, 3, 1, 0, 0, 0, 1, 1)]
  = Some (Scalar 50).
Proof.
  destruct (static_rate_complete_tolerance NeuronExamples.neuron_A
              {[ "A" := 1 / 2 ]}
              [("A", 0, 0, 1, 0, 0, 0, 1, 1); ("B", 2, 3, 1, 0, 0, 0, 1, 1)]
              eq_refl eq_refl eq_refl) as [_ H].
  destruct (H ltac:(done)) as (rates & -> & Hlen & Hrates).
  destruct (Hrates 0%nat _ eq_refl) as (r0 & H0 & -> & _).
  destruct (Hrates 1%nat _ eq_refl) as (r1 & H1 & _ & Hz).
  rewrite (Hz eq_refl) in H1.
  destruct rates as [|a [|b [|c rates]]]; simpl in Hlen; try lia.
  simpl in H0, H1. injection H0 as ->. injection H1 as ->.
  simpl. unfold averaging_clutter. simpl.
  rewrite lookup_singleton_eq. simpl. do 2 f_equal. lra.
Defined.

End NeuronMore.

(** ** Properties of the occlusion fit functions *)
Module OcclusionFacts.
Import OcclusionFit.

Lemma exp_le (x y : R) : x <= y -> exp x <= exp y.
Proof.
  intros [Hlt | ->]; [left; by apply exp_increasing | lra].
Qed.

Lemma sigmoid_range (x a b : R) : 0 < sigmoid x a b < 1.
Proof.
  unfold sigmoid. pose proof (exp_pos (a * (x - b))) as He.
  set (e := exp _) in *.
  assert (0 < / (1 + e)) as Hi by (apply Rinv_0_lt_compat; lra).
  split; [lra|].
  apply (Rmult_lt_reg_r (1 + e)); [lra|].
  unfold Rdiv. rewrite Rmult_assoc, Rinv_l by lra. lra.
Qed.

(** X12: the fitted [sigmoid] takes values strictly between 0 and 1, is
    one half at [x = b], satisfies [sigmoid(b + d) + sigmoid(b - d) = 1],
    and does not increase with [x] when [a >= 0] (does not decrease
    when [a <= 0]); a tuning-surface entry [Z[ii][jj]] with a diagnostic
    weight in [[0, 1]] is therefore strictly between 0 and 1 too. *)
Theorem sigmoid_spec (a b : R) :
  (forall x, 0 < sigmoid x a b < 1) /\
  sigmoid b a b = 1 / 2 /\
  (forall d, sigmoid (b + d) a b + sigmoid (b - d) a b = 1) /\
  (forall x1 x2, 0 <= a -> x1 <= x2 -> sigmoid x2 a b <= sigmoid x1 a b) /\
  (forall x1 x2, a <= 0 -> x1 <= x2 -> sigmoid x1 a b <= sigmoid x2 a b) /\
  (forall diagVar a' b' ii jj,
     0 <= diagVar <= 1 -> 0 < Z diagVar (a, b) (a', b') ii jj < 1).
Proof.
  assert (forall u v, u <= v -> 1 / (1 + exp v) <= 1 / (1 + exp u)) as Hanti.
  { intros u v Huv. pose proof (exp_pos u). pose proof (exp_pos v).
    pose proof (exp_le u v Huv).
    unfold Rdiv. rewrite !Rmult_1_l. apply Rinv_le_contravar; lra. }
  split; [intros x; apply sigmoid_range|]. split; [|split; [|split; [|split]]].
  - unfold sigmoid. replace (a * (b - b)) with 0 by ring.
    rewrite exp_0. lra.
  - intros d. unfold sigmoid.
    replace (a * (b + d - b)) with (a * d) by ring.
    replace (a * (b - d - b)) with (- (a * d)) by ring.
    rewrite exp_Ropp. pose proof (exp_pos (a * d)) as He.
    set (e := exp _) in *. field. lra.
  - intros x1 x2 Ha Hx. unfold sigmoid. apply Hanti. nra.
  - intros x1 x2 Ha Hx. unfold sigmoid. apply Hanti. nra.
  - intros diagVar a' b' ii jj Hd. unfold Z. simpl.
    pose proof (sigmoid_range ii a b) as [H1 H2].
    pose proof (sigmoid_range jj a' b') as [H3 H4].
    set (s1 := sigmoid ii a b) in *. set (s2 := sigmoid jj a' b') in *.
    destruct (Req_dec diagVar 0) as [-> | Hne]; [lra|].
    assert (0 < diagVar * s1) by (apply Rmult_lt_0_compat; lra).
    assert (diagVar * s1 < diagVar * 1) by (apply Rmult_lt_compat_l; lra).
    assert (0 <= (1 - diagVar) * s2) by (apply Rmult_le_pos; lra).
    assert ((1 - diagVar) * s2 <= (1 - diagVar) * 1)
      by (apply Rmult_le_compat_l; lra).
    lra.
Qed.

Lemma sigmoid_spec_witness :
  sigmoid 80 (32 / 100) 70 <= sigmoid 20 (32 / 100) 70 /\
  0 < Z (6 / 10) (32 / 100, 70) (5 / 100, 30) 10 90 < 1.
Proof.
  destruct (sigmoid_spec (32 / 100) 70) as (_ & _ & _ & Hdec & _ & HZ).
  split.
  - apply Hdec; lra.
  - apply HZ. lra.
Defined.

(** X13: for a uniform draw [0 < y <= 1] and a fitted parameter [a > 0]
    the generated value [x = -log(y) / a] is non-negative and is the
    point where the exponential CDF [1 - exp(-a*x)] equals [1 - y]: the
    density there is [exponential(x, a) = a * y]. *)
Theorem genDiagVar_inverse_cdf (y a : R) :
  0 < y <= 1 -> 0 < a ->
  0 <= genDiagVar y a /\
  exp (- a * genDiagVar y a) = y /\
  1 - exp (- a * genDiagVar y a) = 1 - y /\
  exponential (genDiagVar y a) a = a * y.
Proof.
  intros [Hy0 Hy1] Ha. unfold genDiagVar, exponential.
  assert (- a * (- ln y / a) = ln y) as -> by (field; lra).
  rewrite exp_ln by done.
  assert (ln y <= 0) as Hln.
  { destruct Hy1 as [Hlt | ->]; [|rewrite ln_1; lra].
    left. rewrite <- ln_1. by apply ln_increasing. }
  split; [|done].
  apply Rmult_le_pos; [lra|]. left. by apply Rinv_0_lt_compat.
Qed.

Lemma genDiagVar_inverse_cdf_witness :
  0 <= genDiagVar (1 / 2) 3 /\ exp (- (3) * genDiagVar (1 / 2) 3) = 1 / 2.
Proof.
  destruct (genDiagVar_inverse_cdf (1 / 2) 3) as (H0 & He & _); [lra | lra |].
  split; [exact H0 | exact He].
Defined.

End OcclusionFacts.
